(** * DLMS energy meter API server: ingestion, registry, sample
      reconstruction, liveness and the daily aggregate.

    The development embeds the route handlers of the server script
    (the file that creates the express application and the MySQL pool)
    as functions over an explicit database state.

    Conventions of the embedding.
    - A [DATETIME] or [TIMESTAMP] column is a [Z]: a count of seconds on the
      naive calendar the column uses (no time zone), so that [DATE(t)] is the
      day index [t / 86400].
    - A [DOUBLE] column and a JSON number are exact rationals ([Q]); rounding
      of binary floating point is outside the model.
    - [VARCHAR] comparison is string equality (a binary collation).
    - Every awaited call to the pool or the connection can reject; the
      environment [Env.t] says which ones do, statement by statement. *)

From Stdlib Require Import ZArith QArith List Ascii String Bool Lia Sorted Permutation.
Import ListNotations.

Local Open Scope string_scope.
Local Open Scope list_scope.
Local Open Scope Z_scope.

(** ** JavaScript values of the request body *)

(** One element of the [readings] array, at the type of the columns the
    handler binds it to: [obis_code VARCHAR NOT NULL], [description VARCHAR],
    [value DOUBLE NOT NULL], [unit VARCHAR], [scaler INT].  A missing optional
    property ([undefined]) is bound as [NULL] and read back as [null]: [None].
    The same record is the shape of a reading in the latest-samples response. *)
Module Reading.
Record t : Type := mk {
  obis_code : string;
  description : option string;
  value : Q;
  unit : option string;
  scaler : option Z
}.
End Reading.

(** The values [req.body] can hold in a property the handler inspects.
    Array elements are carried as [Reading.t]; any other object is [JObj]. *)
Inductive jsval : Type :=
  | JUndefined
  | JNull
  | JBool (b : bool)
  | JNum (q : Q)
  | JStr (s : string)
  | JArr (items : list Reading.t)
  | JObj.

(** JavaScript truthiness, as [!v] and [v || d] use it. *)
Definition truthy (v : jsval) : bool :=
  match v with
  | JUndefined | JNull => false
  | JBool b => b
  | JNum q => negb (Qeq_bool q 0)
  | JStr s => negb (String.eqb s "")
  | JArr _ | JObj => true
  end.

(** [Array.isArray]. *)
Definition isArray (v : jsval) : bool :=
  match v with JArr _ => true | _ => false end.

(** The destructured request body of [POST /api/v1/meter-readings].
    [meter_id] and [readings] are the properties the handler tests and are
    JavaScript values.  The others are only handed to the store and are carried
    at their column type; [device_info] is [Some text] for a truthy value, with
    [text] what [JSON.stringify] prints for it, and [None] for a missing or
    falsy one. *)
Module Body.
Record t : Type := mk {
  meter_id : jsval;
  location : option string;
  timestamp : Z;
  sequence : option Z;
  device_info : option string;
  readings : jsval
}.
End Body.

(** ** The two tables *)

(** A row of [meters].  The surrogate [id] column is not modelled: no
    handler reads it. *)
Module Meter.
Record t : Type := mk {
  meter_id : string;
  location : option string;
  device_info : string;
  first_seen : Z;
  last_seen : Z
}.
End Meter.

(** A row of [meter_readings]. *)
Module ReadingRow.
Record t : Type := mk {
  id : Z;
  meter_id : string;
  timestamp : Z;
  sequence_number : option Z;
  obis_code : string;
  description : option string;
  value : Q;
  unit : option string;
  scaler : option Z;
  received_at : Z
}.
End ReadingRow.

(** The database: both tables in insertion order, and the [AUTO_INCREMENT]
    counter of [meter_readings]. *)
Module Db.
Record t : Type := mk {
  meters : list Meter.t;
  meter_readings : list ReadingRow.t;
  auto_increment : Z
}.

Definition empty : t := mk [] [] 1.
End Db.

(** ** Environment of one request *)

Module Env.
Record t : Type := mk {
  (** whether the [k]-th awaited store call of the request rejects *)
  rejects : nat -> bool;
  (** [CURRENT_TIMESTAMP] / [NOW()] of the [k]-th store call, in seconds *)
  sql_now : nat -> Z;
  (** [Date.now()], in milliseconds *)
  date_now : Z
}.

(** A store that answers every call, at one instant. *)
Definition calm (now : Z) : t := mk (fun _ => false) (fun _ => now) (1000 * now).
End Env.

(** ** Responses *)

(** A logical sample of the latest-samples response. *)
Module Sample.
Record t : Type := mk {
  timestamp : Z;
  sequence_number : option Z;
  readings : list Reading.t
}.
End Sample.

(** An element of the meters listing. *)
Module MeterView.
Record t : Type := mk {
  meter_id : string;
  location : option string;
  device_info : string;
  total_readings : nat;
  first_seen : Z;
  last_seen : Z;
  latest_reading_time : option Z;
  status : string
}.
End MeterView.

(** A row of the daily aggregate. *)
Module Daily.
Record t : Type := mk {
  date : Z;
  reading_count : nat;
  avg_power : option Q
}.
End Daily.

Inductive payload : Type :=
  | Error (message : string)
  | ReadingsReceived (readings_received : nat)
  | MetersData (data : list MeterView.t)
  | LatestData (data : list Sample.t)
  | DashboardData (meterInfo : list Meter.t) (latest : list ReadingRow.t) (daily : list Daily.t).

Record response : Type := mkResponse {
  http_status : Z;
  json : payload
}.

Definition InvalidPayload : response := mkResponse 400 (Error "Invalid payload").
Definition TooManyReadings : response := mkResponse 400 (Error "Too many readings (max 100)").
Definition DbError : response := mkResponse 500 (Error "DB error").
Definition success (p : payload) : response := mkResponse 200 p.

(** ** POST /api/v1/meter-readings *)

(** The text bound to the [meter_id] parameters.  A string is bound as
    itself.  The other truthy values (numbers, [true], arrays, objects) go
    through the driver's escaping, which is not part of this repository: the
    model does not bind them, and no statement below about a request that
    reaches the store is made for them (they assume a string [meter_id], or
    [meter_id_in_model]). *)
Definition bind_meter_id (v : jsval) : option string :=
  match v with JStr s => Some s | _ => None end.

(** [JSON.stringify(device_info || {})]. *)
Definition stringify_device_info (d : option string) : string :=
  match d with Some text => text | None => "{}" end.

(** [INSERT INTO meters ... ON DUPLICATE KEY UPDATE ...]: [meter_id] is the
    unique key.  A new row takes both [first_seen] (column default) and
    [last_seen] from [CURRENT_TIMESTAMP]; an existing row has [location],
    [device_info] and [last_seen] assigned. *)
Fixpoint upsert_meter (now : Z) (mid : string) (loc : option string)
    (dev : string) (tbl : list Meter.t) : list Meter.t :=
  match tbl with
  | [] => [Meter.mk mid loc dev now now]
  | m :: rest =>
      if String.eqb (Meter.meter_id m) mid
      then Meter.mk (Meter.meter_id m) loc dev (Meter.first_seen m) now :: rest
      else m :: upsert_meter now mid loc dev rest
  end.

(** The row one [INSERT INTO meter_readings] statement writes. *)
Definition new_row (id : Z) (mid : string) (ts : Z) (seq : option Z)
    (r : Reading.t) (now : Z) : ReadingRow.t :=
  ReadingRow.mk id mid ts seq (Reading.obis_code r) (Reading.description r)
    (Reading.value r) (Reading.unit r) (Reading.scaler r) now.

(** The [for (let r of readings)] loop: one statement per element, the
    [k]-th store call of the request for the first one.  A rejected statement
    throws: the rows written so far stay, the result is [false]. *)
Fixpoint insert_readings (env : Env.t) (k : nat) (mid : string) (ts : Z)
    (seq : option Z) (rs : list Reading.t) (db : Db.t) : bool * Db.t :=
  match rs with
  | [] => (true, db)
  | r :: rest =>
      if Env.rejects env k then (false, db)
      else
        let row := new_row (Db.auto_increment db) mid ts seq r (Env.sql_now env k) in
        insert_readings env (S k) mid ts seq rest
          (Db.mk (Db.meters db) (Db.meter_readings db ++ [row])
                 (Db.auto_increment db + 1))
  end.

(** The outcome of the Reading Validator, the two [if]s that open the
    handler. *)
Inductive validation : Type :=
  | Invalid
  | TooMany
  | Valid (rs : list Reading.t).

Definition validate (b : Body.t) : validation :=
  if negb (truthy (Body.meter_id b)) || negb (isArray (Body.readings b))
  then Invalid
  else
    match Body.readings b with
    | JArr rs => if (100 <? List.length rs)%nat then TooMany else Valid rs
    | _ => Invalid
    end.

(** The handler.  Store calls: 0 is [pool.getConnection()], 1 the upsert,
    2 and up the row inserts; a rejected call lands in the [catch].  A truthy
    [meter_id] that is not a string is outside the model, which answers it like
    a rejected statement. *)
Definition post_meter_readings (env : Env.t) (db : Db.t) (b : Body.t)
    : response * Db.t :=
  match validate b with
  | Invalid => (InvalidPayload, db)
  | TooMany => (TooManyReadings, db)
  | Valid rs =>
      if Env.rejects env 0 then (DbError, db)
      else
        match bind_meter_id (Body.meter_id b) with
        | None => (DbError, db)
        | Some mid =>
            if Env.rejects env 1 then (DbError, db)
            else
              let db1 :=
                Db.mk (upsert_meter (Env.sql_now env 1) mid (Body.location b)
                         (stringify_device_info (Body.device_info b)) (Db.meters db))
                      (Db.meter_readings db) (Db.auto_increment db) in
              match insert_readings env 2 mid (Body.timestamp b)
                      (Body.sequence b) rs db1 with
              | (true, db2) => (success (ReadingsReceived (List.length rs)), db2)
              | (false, db2) => (DbError, db2)
              end
        end
  end.


(** ** ORDER BY and LIMIT *)

(** [ORDER BY] as a stable insertion sort: [before a b] says that [a] sorts
    strictly ahead of [b].  Rows that tie keep their table order, one of the
    orders the engine may choose; under [timestamp DESC, id DESC] no two rows
    tie. *)
Fixpoint insert_by {A : Type} (before : A -> A -> bool) (a : A) (l : list A)
    : list A :=
  match l with
  | [] => [a]
  | b :: l' => if before b a then b :: insert_by before a l' else a :: l
  end.

Definition order_by {A : Type} (before : A -> A -> bool) (l : list A) : list A :=
  fold_right (insert_by before) [] l.

(** [ORDER BY timestamp DESC, id DESC]. *)
Definition timestamp_desc_id_desc (a b : ReadingRow.t) : bool :=
  (ReadingRow.timestamp b <? ReadingRow.timestamp a)
  || ((ReadingRow.timestamp a =? ReadingRow.timestamp b)
      && (ReadingRow.id b <? ReadingRow.id a)).

(** [ORDER BY last_seen DESC]. *)
Definition last_seen_desc (a b : Meter.t) : bool :=
  Meter.last_seen b <? Meter.last_seen a.

(** [SELECT * FROM meter_readings WHERE meter_id=? ORDER BY timestamp DESC,
    id DESC LIMIT ?], for a row limit that is not negative. *)
Definition select_latest_rows (mid : string) (row_limit : Z)
    (tbl : list ReadingRow.t) : list ReadingRow.t :=
  firstn (Z.to_nat row_limit)
    (order_by timestamp_desc_id_desc
       (filter (fun r => String.eqb (ReadingRow.meter_id r) mid) tbl)).

(** ** GET /api/v1/meters/:meterId/latest *)

(** The reading object pushed for a row. *)
Definition reading_of_row (r : ReadingRow.t) : Reading.t :=
  Reading.mk (ReadingRow.obis_code r) (ReadingRow.description r)
    (ReadingRow.value r) (ReadingRow.unit r) (ReadingRow.scaler r).

(** The body of the [forEach]: [out] is the object keyed by the row's
    timestamp, as the list of its values in key insertion order.  The key is
    the text of the timestamp, taken to be one text per [DATETIME] value. *)
Fixpoint push_row (out : list Sample.t) (r : ReadingRow.t) : list Sample.t :=
  match out with
  | [] =>
      [Sample.mk (ReadingRow.timestamp r) (ReadingRow.sequence_number r)
         [reading_of_row r]]
  | s :: out' =>
      if Sample.timestamp s =? ReadingRow.timestamp r
      then Sample.mk (Sample.timestamp s) (Sample.sequence_number s)
             (Sample.readings s ++ [reading_of_row r]) :: out'
      else s :: push_row out' r
  end.

(** [rows.forEach(...)] followed by [Object.values(out)]. *)
Definition group_by_timestamp (rows : list ReadingRow.t) : list Sample.t :=
  fold_left push_row rows [].

(** [parseInt(req.query.limit) || 1]; the argument is what [parseInt]
    returns, [None] for [NaN]. *)
Definition sample_limit (parsed : option Z) : Z :=
  match parsed with
  | None => 1
  | Some n => if n =? 0 then 1 else n
  end.

(** [Array.prototype.slice(0, n)]: a negative [n] counts from the end. *)
Definition slice0 {A : Type} (n : Z) (l : list A) : list A :=
  if n <? 0 then firstn (List.length l - Z.to_nat (- n)) l else firstn (Z.to_nat n) l.

(** The handler.  The one store call is the [SELECT]; MySQL refuses a
    negative [LIMIT], which the [catch] turns into the same answer as any other
    store failure. *)
Definition get_latest (env : Env.t) (db : Db.t) (meterId : string)
    (parsed : option Z) : response * Db.t :=
  let limit := sample_limit parsed in
  if Env.rejects env 0 || (limit * 10 <? 0) then (DbError, db)
  else
    let rows := select_latest_rows meterId (limit * 10) (Db.meter_readings db) in
    (success (LatestData (slice0 limit (group_by_timestamp rows))), db).

(** ** Liveness and GET /api/v1/meters *)

(** [isOnline]: both arguments in milliseconds, [now] for [Date.now()] and
    [last] for [new Date(last)]. *)
Definition isOnline (now last : Z) : bool :=
  let diff := (inject_Z (now - last) / inject_Z 60000)%Q in
  negb (Qle_bool (inject_Z 2) diff).

(** The driver hands a [TIMESTAMP] column over as a [Date]. *)
Definition date_of_timestamp (t : Z) : Z := 1000 * t.

(** [MAX(r.timestamp)] over the joined rows, [NULL] when there is none. *)
Definition max_timestamp (rows : list ReadingRow.t) : option Z :=
  fold_left
    (fun acc r =>
       match acc with
       | None => Some (ReadingRow.timestamp r)
       | Some t => Some (Z.max t (ReadingRow.timestamp r))
       end)
    rows None.

(** One element of [rows.map(...)]: the meter, its [LEFT JOIN] aggregates
    and the status.  [JSON.parse(r.device_info || '{}')] is carried as the text
    it parses. *)
Definition meter_view (now : Z) (readings : list ReadingRow.t) (m : Meter.t)
    : MeterView.t :=
  let mine :=
    filter (fun r => String.eqb (Meter.meter_id m) (ReadingRow.meter_id r)) readings in
  MeterView.mk (Meter.meter_id m) (Meter.location m)
    (if String.eqb (Meter.device_info m) "" then "{}" else Meter.device_info m)
    (List.length mine) (Meter.first_seen m) (Meter.last_seen m) (max_timestamp mine)
    (if isOnline now (date_of_timestamp (Meter.last_seen m))
     then "online" else "offline").

Definition get_meters (env : Env.t) (db : Db.t) : response * Db.t :=
  if Env.rejects env 0 then (DbError, db)
  else
    (success
       (MetersData
          (map (meter_view (Env.date_now env) (Db.meter_readings db))
             (order_by last_seen_desc (Db.meters db)))),
     db).

(** ** GET /api/v1/dashboard/data *)

(** The OBIS code of "active power, positive direction". *)
Definition active_power_code : string := "1.0.1.7.0.255".

(** [DATE(timestamp)]: the calendar day of a [DATETIME], as a day index. *)
Definition DATE (t : Z) : Z := t / 86400.

(** [timestamp >= DATE_SUB(NOW(), INTERVAL 7 DAY)]. *)
Definition since_7_days (now : Z) (r : ReadingRow.t) : bool :=
  now - 7 * 86400 <=? ReadingRow.timestamp r.

(** [AVG] over the values that are not [NULL]: [NULL] when there is none. *)
Definition AVG (values : list Q) : option Q :=
  match values with
  | [] => None
  | _ :: _ =>
      Some (fold_left Qplus values (inject_Z 0)
            / inject_Z (Z.of_nat (List.length values)))%Q
  end.

(** The rows of one [GROUP BY DATE(timestamp)] group. *)
Definition rows_of_date (d : Z) (rows : list ReadingRow.t) : list ReadingRow.t :=
  filter (fun r => DATE (ReadingRow.timestamp r) =? d) rows.

(** [CASE WHEN obis_code='1.0.1.7.0.255' THEN value END], without the
    [NULL]s. *)
Definition active_power_values (rows : list ReadingRow.t) : list Q :=
  map ReadingRow.value
    (filter (fun r => String.eqb (ReadingRow.obis_code r) active_power_code) rows).

(** The daily aggregate query: the [WHERE] clause, one output row per distinct
    date, [ORDER BY date DESC]. *)
Definition daily_aggregate (now : Z) (tbl : list ReadingRow.t) : list Daily.t :=
  let rows := filter (since_7_days now) tbl in
  let dates :=
    order_by (fun a b => b <? a)
      (nodup Z.eq_dec (map (fun r => DATE (ReadingRow.timestamp r)) rows)) in
  map (fun d =>
         Daily.mk d (List.length (rows_of_date d rows))
           (AVG (active_power_values (rows_of_date d rows))))
      dates.

(** The handler: three store calls.  With no meter, [meter_id] is [null] and
    [meter_id = NULL] selects no row. *)
Definition get_dashboard_data (env : Env.t) (db : Db.t) : response * Db.t :=
  if Env.rejects env 0 then (DbError, db)
  else
    let meterInfo := firstn 1 (order_by last_seen_desc (Db.meters db)) in
    let meter_id :=
      match meterInfo with
      | m :: _ => Some (Meter.meter_id m)
      | [] => None
      end in
    if Env.rejects env 1 then (DbError, db)
    else
      let latest :=
        match meter_id with
        | Some mid => select_latest_rows mid 10 (Db.meter_readings db)
        | None => []
        end in
      if Env.rejects env 2 then (DbError, db)
      else
        (success
           (DashboardData meterInfo latest
              (daily_aggregate (Env.sql_now env 2) (Db.meter_readings db))),
         db).

(** ** API key middleware *)

(** [s.split(sep)] for a one-character separator: the pieces between the
    separators, empty ones included; the empty string gives one empty piece. *)
Fixpoint split_on (sep : Ascii.ascii) (s : string) : list string :=
  match s with
  | EmptyString => [EmptyString]
  | String c s' =>
      if Ascii.eqb c sep then EmptyString :: split_on sep s'
      else
        match split_on sep s' with
        | [] => [String c EmptyString]
        | w :: ws => String c w :: ws
        end
  end.

Definition validKeys : list string := ["poc_demo_key_2024"; "demo_key_12345"].

(** [header && header.split(' ')[1]]: [None] is [undefined]. *)
Definition apiKey_of (header : option string) : option string :=
  match header with
  | None => None
  | Some h => if String.eqb h "" then Some "" else nth_error (split_on " "%char h) 1
  end.

(** [validateApiKey]: [true] when the middleware calls [next()], [false]
    when it answers 401.  The argument is [req.headers.authorization]. *)
Definition validateApiKey (header : option string) : bool :=
  match apiKey_of header with
  | None => false
  | Some k => negb (String.eqb k "") && existsb (String.eqb k) validKeys
  end.

Definition Unauthorized : response := mkResponse 401 (Error "Invalid API key").

(** The route [app.post('/api/v1/meter-readings', validateApiKey, handler)]. *)
Definition route_meter_readings (env : Env.t) (db : Db.t)
    (authorization : option string) (b : Body.t) : response * Db.t :=
  if validateApiKey authorization then post_meter_readings env db b
  else (Unauthorized, db).

(** ** GET /api/health *)

Module Health.
Record t : Type := mk {
  http_status : Z;
  status : string;
  (** [new Date().toISOString()], as the instant it prints *)
  timestamp : option Z
}.
End Health.

(** One store call, [SELECT 1]; both branches answer with [res.json], hence
    with status 200. *)
Definition get_health (env : Env.t) (db : Db.t) : Health.t * Db.t :=
  if Env.rejects env 0 then (Health.mk 200 "unhealthy" None, db)
  else (Health.mk 200 "healthy" (Some (Env.date_now env)), db).

(** ** The counters of the API test script *)

Module TestSuite.
Record counters : Type := mk {
  testCount : nat;
  passedTests : nat;
  failedTests : nat
}.

(** [let testCount = 0; let passedTests = 0; let failedTests = 0]. *)
Definition start : counters := mk 0 0 0.

(** [testResult(testName, passed, details)], with [passed] the truthiness
    of the second argument; the log line is not modelled. *)
Definition testResult (passed : bool) (c : counters) : counters :=
  if passed
  then mk (S (testCount c)) (S (passedTests c)) (failedTests c)
  else mk (S (testCount c)) (passedTests c) (S (failedTests c)).

(** [failedTests === 0 ? 0 : 1], the argument of the [process.exit] that
    closes the summary. *)
Definition summary_exit_code (c : counters) : Z :=
  if Nat.eqb (failedTests c) 0 then 0 else 1.

(** The counters after the given outcomes were reported in turn. *)
Definition report (outcomes : list bool) : counters :=
  fold_left (fun c passed => testResult passed c) outcomes start.

(** What happens during one run of the script: whether the [axios.get] of
    [/api/health] that opens [runAllTests] resolves, the outcomes the test
    functions then report in turn, and whether a promise is rejected without a
    handler before the summary. *)
Record run : Type := mkRun {
  server_answers : bool;
  outcomes : list bool;
  unhandled_rejection : bool
}.

(** The exit code of the script.  [runAllTests] leaves with 1 from the
    [catch] of its opening health request, before any outcome is reported;
    the [unhandledRejection] handler leaves with 1; otherwise the summary
    decides. *)
Definition runAllTests (r : run) : Z :=
  if negb (server_answers r) then 1
  else if unhandled_rejection r then 1
  else summary_exit_code (report (outcomes r)).
End TestSuite.

(** ** Auxiliary definitions for the statements *)

(** The unique-key lookup in [meters]. *)
Definition find_meter (mid : string) (tbl : list Meter.t) : option Meter.t :=
  find (fun m => String.eqb (Meter.meter_id m) mid) tbl.

(** Every stored id was handed out by the counter. *)
Definition ids_below_counter (db : Db.t) : Prop :=
  forall r, In r (Db.meter_readings db) -> ReadingRow.id r < Db.auto_increment db.

(** Ids grow along the table: of two rows, the one inserted later has the
    larger id. *)
Definition ids_follow_insertion (db : Db.t) : Prop :=
  StronglySorted (fun a b => ReadingRow.id a < ReadingRow.id b)
    (Db.meter_readings db).

(** The rows a run of the insert loop writes when no statement rejects. *)
Fixpoint rows_written (env : Env.t) (k : nat) (mid : string) (ts : Z)
    (seq : option Z) (rs : list Reading.t) (id : Z) : list ReadingRow.t :=
  match rs with
  | [] => []
  | r :: rest =>
      new_row id mid ts seq r (Env.sql_now env k)
      :: rows_written env (S k) mid ts seq rest (id + 1)
  end.

(** The order the [ORDER BY timestamp DESC, id DESC] clause asks for. *)
Definition newest_first (a b : ReadingRow.t) : Prop :=
  ReadingRow.timestamp b < ReadingRow.timestamp a
  \/ (ReadingRow.timestamp a = ReadingRow.timestamp b
      /\ ReadingRow.id b <= ReadingRow.id a).

(** The rows of a fetch that carry one timestamp, in fetch order. *)
Definition rows_at (t : Z) (rows : list ReadingRow.t) : list ReadingRow.t :=
  filter (fun r => ReadingRow.timestamp r =? t) rows.

(** The sample the reconstruction owes to timestamp [t] after the rows
    [rows] went through the loop: none when no row carries [t]; else the
    sequence number of the first such row and all their readings in order. *)
Definition sample_for (t : Z) (rows : list ReadingRow.t) : option Sample.t :=
  match rows_at t rows with
  | [] => None
  | r :: rest =>
      Some (Sample.mk t (ReadingRow.sequence_number r)
              (map reading_of_row (r :: rest)))
  end.

(** The update of the forEach body on the sample whose key the row has. *)
Definition push_into (r : ReadingRow.t) (s : Sample.t) : Sample.t :=
  if Sample.timestamp s =? ReadingRow.timestamp r
  then Sample.mk (Sample.timestamp s) (Sample.sequence_number s)
         (Sample.readings s ++ [reading_of_row r])
  else s.

(** The state of the loop after the rows [done]: one sample per timestamp,
    each the one [sample_for] describes, and a sample for every row. *)
Definition loop_invariant (out : list Sample.t) (done : list ReadingRow.t) : Prop :=
  NoDup (map Sample.timestamp out)
  /\ (forall s, In s out -> sample_for (Sample.timestamp s) done = Some s)
  /\ (forall r, In r done ->
        exists s, In s out /\ Sample.timestamp s = ReadingRow.timestamp r).

(** Samples in strictly decreasing order of timestamp. *)
Definition most_recent_first (s s' : Sample.t) : Prop :=
  Sample.timestamp s' < Sample.timestamp s.

(** How many statements of a run of [n], the first being the [k]-th store
    call, go through before one rejects. *)
Fixpoint stored_prefix (env : Env.t) (k n : nat) : nat :=
  match n with
  | O => O
  | S n' => if Env.rejects env k then O else S (stored_prefix env (S k) n')
  end.

(** The [UNIQUE] key of [meters]. *)
Definition unique_meter_ids (db : Db.t) : Prop :=
  NoDup (map Meter.meter_id (Db.meters db)).

(** The [FOREIGN KEY] of [meter_readings]. *)
Definition readings_reference_meters (db : Db.t) : Prop :=
  forall r, In r (Db.meter_readings db) ->
    In (ReadingRow.meter_id r) (map Meter.meter_id (Db.meters db)).

(** The rows of one meter, in table order. *)
Definition rows_of_meter (mid : string) (tbl : list ReadingRow.t) : list ReadingRow.t :=
  filter (fun r => String.eqb (ReadingRow.meter_id r) mid) tbl.

(** The number of readings a list of samples carries. *)
Definition readings_total (data : list Sample.t) : nat :=
  fold_right (fun s n => (List.length (Sample.readings s) + n)%nat) O data.

(** The number of rows a daily aggregate accounts for. *)
Definition counted_rows (daily : list Daily.t) : nat :=
  fold_right (fun d n => (Daily.reading_count d + n)%nat) O daily.

(** Whether a character occurs in a string. *)
Fixpoint occurs (c : Ascii.ascii) (s : string) : bool :=
  match s with
  | EmptyString => false
  | String c' s' => Ascii.eqb c' c || occurs c s'
  end.

(** The requests whose [meter_id] the model binds: a string, or a falsy
    value that does not pass the validator. *)
Definition meter_id_in_model (b : Body.t) : Prop :=
  truthy (Body.meter_id b) = false \/ exists s, Body.meter_id b = JStr s.

(** ** Sample data *)

(** [{meter_id: "M1", timestamp: t, sequence: 1, readings: rs}]. *)
Definition body_M1 (t : Z) (rs : jsval) : Body.t :=
  Body.mk (JStr "M1") None t (Some 1) None rs.


Definition active_power_100 : Reading.t :=
  Reading.mk "1.0.1.7.0.255" (Some "Active power+") (inject_Z 100) (Some "W") (Some 0).

Definition voltage_230 : Reading.t :=
  Reading.mk "1.0.32.7.0.255" (Some "Voltage L1") (inject_Z 230) (Some "V") (Some 0).


(** A store where meter M1 already holds one row stamped at second 200. *)
Definition db_with_later_sample : Db.t :=
  snd (post_meter_readings (Env.calm 250) Db.empty
         (body_M1 200 (JArr [voltage_230]))).

(** [{meter_id: "M2", timestamp: t, sequence: 7, readings: rs}]. *)
Definition body_M2 (t : Z) (rs : jsval) : Body.t :=
  Body.mk (JStr "M2") (Some "roof") t (Some 7) None rs.

(** A store with two meters: M1 as above, and M2 with one row stamped at
    second 150. *)
Definition db_two_meters : Db.t :=
  snd (post_meter_readings (Env.calm 255) db_with_later_sample
         (body_M2 150 (JArr [active_power_100]))).

(** The same store after M1 delivers, late, a sample stamped at second 100. *)
Definition db_after_earlier_sample : Db.t :=
  snd (post_meter_readings (Env.calm 260) db_with_later_sample
         (body_M1 100 (JArr [active_power_100]))).

(** * Properties *)

(** ** ORDER BY *)

Section OrderBy.
Context {A : Type} (before : A -> A -> bool).

Lemma insert_by_In (a x : A) (l : list A) :
  In x (insert_by before a l) <-> x = a \/ In x l.
Proof.
  induction l as [|b l IH]; simpl.
  - intuition congruence.
  - destruct (before b a); simpl; rewrite ?IH; intuition congruence.
Qed.

Lemma order_by_In (x : A) (l : list A) :
  In x (order_by before l) <-> In x l.
Proof.
  induction l as [|a l IH]; simpl; [tauto|].
  rewrite insert_by_In, IH. intuition congruence.
Qed.

Lemma insert_by_length (a : A) (l : list A) :
  List.length (insert_by before a l) = S (List.length l).
Proof.
  induction l as [|b l IH]; simpl; [reflexivity|].
  destruct (before b a); simpl; congruence.
Qed.

Lemma order_by_length (l : list A) :
  List.length (order_by before l) = List.length l.
Proof.
  induction l as [|a l IH]; simpl; [reflexivity|].
  now rewrite insert_by_length, IH.
Qed.

Lemma insert_by_Permutation (a : A) (l : list A) :
  Permutation (insert_by before a l) (a :: l).
Proof.
  induction l as [|b l IH]; simpl; [reflexivity|].
  destruct (before b a); [|reflexivity].
  rewrite IH. apply perm_swap.
Qed.

Lemma order_by_Permutation (l : list A) : Permutation (order_by before l) l.
Proof.
  induction l as [|a l IH]; simpl; [reflexivity|].
  rewrite insert_by_Permutation. now constructor.
Qed.

(** An element that every row of a prefix sorts ahead of goes past the
    prefix. *)
Lemma insert_by_past_prefix (x : A) (pre l : list A) :
  (forall y, In y pre -> before y x = true) ->
  insert_by before x (pre ++ l) = pre ++ insert_by before x l.
Proof.
  induction pre as [|y pre IH]; simpl; intros H; [reflexivity|].
  rewrite (H y) by auto. f_equal. apply IH. auto.
Qed.

(** Rows that all sort ahead of the others come first, in their own order. *)
Lemma order_by_app_top (olds news : list A) :
  (forall o n, In o olds -> In n (order_by before news) -> before n o = true) ->
  order_by before (olds ++ news) = order_by before news ++ order_by before olds.
Proof.
  induction olds as [|o olds IH]; simpl; intros H.
  - now rewrite app_nil_r.
  - fold (order_by before (olds ++ news)). fold (order_by before olds).
    rewrite IH by (intros; apply H; auto).
    apply insert_by_past_prefix. intros n Hn. apply H; auto.
Qed.

Variable R : A -> A -> Prop.
Hypothesis R_trans : forall a b c, R a b -> R b c -> R a c.
Hypothesis before_true : forall a b, before a b = true -> R a b.
Hypothesis before_false : forall a b, before a b = false -> R b a.

Lemma insert_by_sorted (a : A) (l : list A) :
  StronglySorted R l -> StronglySorted R (insert_by before a l).
Proof.
  induction l as [|b l IH]; simpl; intros Hs.
  - repeat constructor.
  - inversion Hs as [|? ? Hl Hb]; subst.
    destruct (before b a) eqn:E.
    + constructor; [auto|].
      rewrite Forall_forall in *. intros x Hx.
      apply insert_by_In in Hx. destruct Hx as [->|Hx]; auto.
    + constructor; [assumption|].
      constructor; [auto|].
      rewrite Forall_forall in *. intros x Hx. eauto.
Qed.

Lemma order_by_sorted (l : list A) : StronglySorted R (order_by before l).
Proof.
  induction l as [|a l IH]; simpl; [constructor|].
  now apply insert_by_sorted.
Qed.

End OrderBy.

Lemma firstn_In {A : Type} (n : nat) (l : list A) (x : A) :
  In x (firstn n l) -> In x l.
Proof.
  revert n. induction l as [|a l IH]; intros [|n]; simpl; try tauto.
  intros [->|H]; eauto.
Qed.

Lemma firstn_sorted {A : Type} (R : A -> A -> Prop) (n : nat) (l : list A) :
  StronglySorted R l -> StronglySorted R (firstn n l).
Proof.
  revert n. induction l as [|a l IH]; intros [|n] Hs; simpl; try constructor.
  - inversion Hs; subst. auto.
  - inversion Hs as [|? ? _ Hf]; subst.
    rewrite Forall_forall in *. intros x Hx. apply Hf.
    eapply firstn_In; eauto.
Qed.

Lemma newest_first_trans (a b c : ReadingRow.t) :
  newest_first a b -> newest_first b c -> newest_first a c.
Proof. unfold newest_first. lia. Qed.

Lemma timestamp_desc_id_desc_true (a b : ReadingRow.t) :
  timestamp_desc_id_desc a b = true -> newest_first a b.
Proof. unfold timestamp_desc_id_desc, newest_first. lia. Qed.

Lemma timestamp_desc_id_desc_false (a b : ReadingRow.t) :
  timestamp_desc_id_desc a b = false -> newest_first b a.
Proof. unfold timestamp_desc_id_desc, newest_first. lia. Qed.

(** ** The insert loop *)

Lemma insert_readings_all env (rs : list Reading.t) :
  forall k mid ts seq db,
  (forall j, (k <= j)%nat -> Env.rejects env j = false) ->
  insert_readings env k mid ts seq rs db =
    (true,
     Db.mk (Db.meters db)
       (Db.meter_readings db
        ++ rows_written env k mid ts seq rs (Db.auto_increment db))
       (Db.auto_increment db + Z.of_nat (List.length rs))).
Proof.
  induction rs as [|r rs IH]; intros k mid ts seq db Hk; simpl.
  - destruct db; simpl. now rewrite app_nil_r, Z.add_0_r.
  - rewrite (Hk k) by lia. rewrite IH by (intros; apply Hk; lia). simpl.
    rewrite <- app_assoc. simpl. do 2 f_equal. lia.
Qed.

Lemma insert_readings_meters env (rs : list Reading.t) :
  forall k mid ts seq db,
  Db.meters (snd (insert_readings env k mid ts seq rs db)) = Db.meters db.
Proof.
  induction rs as [|r rs IH]; intros; simpl; [reflexivity|].
  destruct (Env.rejects env k); [reflexivity|]. now rewrite IH.
Qed.

Lemma insert_readings_ids env (rs : list Reading.t) :
  forall k mid ts seq db,
  ids_below_counter db ->
  ids_below_counter (snd (insert_readings env k mid ts seq rs db)).
Proof.
  induction rs as [|r rs IH]; intros k mid ts seq db Hdb; simpl; [assumption|].
  destruct (Env.rejects env k); [assumption|].
  apply IH. intros x Hx; simpl in *.
  apply in_app_or in Hx. destruct Hx as [Hx|[<-|[]]].
  - specialize (Hdb x Hx). lia.
  - simpl. lia.
Qed.

Lemma ids_below_counter_empty : ids_below_counter Db.empty.
Proof. intros r []. Qed.

Lemma StronglySorted_snoc {A : Type} (R : A -> A -> Prop) (l : list A) (x : A) :
  StronglySorted R l -> (forall y, In y l -> R y x) ->
  StronglySorted R (l ++ [x]).
Proof.
  induction 1 as [|a l Hs IH Hall]; simpl; intros Hx.
  - repeat constructor.
  - constructor; [auto|].
    rewrite Forall_forall in *. intros y Hy.
    apply in_app_or in Hy. destruct Hy as [Hy|[<-|[]]]; auto.
Qed.

Lemma insert_readings_follow_insertion env (rs : list Reading.t) :
  forall k mid ts seq db,
  ids_below_counter db -> ids_follow_insertion db ->
  ids_follow_insertion (snd (insert_readings env k mid ts seq rs db)).
Proof.
  induction rs as [|r rs IH]; intros k mid ts seq db Hb Hf; simpl; [assumption|].
  destruct (Env.rejects env k); [assumption|].
  apply IH.
  - intros x Hx; simpl in *.
    apply in_app_or in Hx. destruct Hx as [Hx|[<-|[]]].
    + specialize (Hb x Hx). lia.
    + simpl. lia.
  - unfold ids_follow_insertion in *. simpl.
    apply StronglySorted_snoc; [assumption|].
    intros y Hy. simpl. now apply Hb.
Qed.

Lemma ids_follow_insertion_empty : ids_follow_insertion Db.empty.
Proof. constructor. Qed.

(** Every request leaves the ids below the counter. *)
Lemma post_meter_readings_ids env db b :
  ids_below_counter db -> ids_below_counter (snd (post_meter_readings env db b)).
Proof.
  intros Hdb. unfold post_meter_readings.
  destruct (validate b); try assumption.
  destruct (Env.rejects env 0); [assumption|].
  destruct (bind_meter_id _); [|assumption].
  destruct (Env.rejects env 1); [assumption|].
  match goal with
  | |- context [insert_readings ?e ?k ?m ?t ?s ?r ?d] =>
      pose proof (insert_readings_ids e r k m t s d) as H;
      destruct (insert_readings e k m t s r d) as [[] db2]
  end; simpl in *; apply H; exact Hdb.
Qed.

(** Every request leaves the ids growing along the table: [id DESC] is
    insertion order, latest first. *)
Lemma post_meter_readings_follow_insertion env db b :
  ids_below_counter db -> ids_follow_insertion db ->
  ids_follow_insertion (snd (post_meter_readings env db b)).
Proof.
  intros Hb Hf. unfold post_meter_readings.
  destruct (validate b); try assumption.
  destruct (Env.rejects env 0); [assumption|].
  destruct (bind_meter_id _); [|assumption].
  destruct (Env.rejects env 1); [assumption|].
  match goal with
  | |- context [insert_readings ?e ?k ?m ?t ?s ?r ?d] =>
      pose proof (insert_readings_follow_insertion e r k m t s d) as H;
      destruct (insert_readings e k m t s r d) as [[] db2]
  end; simpl in *; apply H; assumption.
Qed.

Lemma validate_array (b : Body.t) (rs : list Reading.t) :
  truthy (Body.meter_id b) = true -> Body.readings b = JArr rs ->
  validate b = if (100 <? List.length rs)%nat then TooMany else Valid rs.
Proof.
  intros Hm Hr. unfold validate. now rewrite Hm, Hr.
Qed.

Lemma truthy_nonempty (s : string) : s <> "" -> truthy (JStr s) = true.
Proof.
  intros Hs. simpl. destruct (String.eqb_spec s ""); [contradiction|reflexivity].
Qed.

(** ** Ingestion *)

Lemma post_meter_readings_calm env db b (s : string) (rs : list Reading.t) :
  Body.meter_id b = JStr s -> s <> "" ->
  Body.readings b = JArr rs ->
  (List.length rs <= 100)%nat ->
  (forall k, Env.rejects env k = false) ->
  post_meter_readings env db b =
    (success (ReadingsReceived (List.length rs)),
     Db.mk (upsert_meter (Env.sql_now env 1) s (Body.location b)
              (stringify_device_info (Body.device_info b)) (Db.meters db))
           (Db.meter_readings db
            ++ rows_written env 2 s (Body.timestamp b) (Body.sequence b) rs
                 (Db.auto_increment db))
           (Db.auto_increment db + Z.of_nat (List.length rs))).
Proof.
  intros Hm Hs Hr Hlen Hcalm. unfold post_meter_readings.
  rewrite (validate_array b rs) by (rewrite ?Hm; auto using truthy_nonempty).
  destruct (Nat.ltb_spec 100 (List.length rs)); [lia|].
  rewrite !Hcalm, Hm. simpl bind_meter_id. cbv iota.
  rewrite insert_readings_all by (intros; apply Hcalm). reflexivity.
Qed.




(** C3, as the code has it.  A payload whose [readings] array has more than
    100 elements is refused with status 400 and the database is left as it
    was: no upsert, no row.  The message is the one of [TooManyReadings] when
    [meter_id] is truthy; the [meter_id] test comes first, so without a truthy
    [meter_id] the answer is [InvalidPayload]. *)
Theorem over_100_readings_refused env db b (rs : list Reading.t) :
  Body.readings b = JArr rs ->
  (100 < List.length rs)%nat ->
  snd (post_meter_readings env db b) = db
  /\ http_status (fst (post_meter_readings env db b)) = 400
  /\ (truthy (Body.meter_id b) = true ->
      post_meter_readings env db b = (TooManyReadings, db))
  /\ (truthy (Body.meter_id b) = false ->
      post_meter_readings env db b = (InvalidPayload, db)).
Proof.
  intros Hr Hlen. unfold post_meter_readings, validate. rewrite Hr. simpl isArray.
  destruct (truthy (Body.meter_id b)); simpl negb; cbv iota.
  - simpl orb. cbv iota.
    destruct (Nat.ltb_spec 100 (List.length rs)); [|lia].
    repeat split; intros; congruence.
  - simpl. repeat split; intros; congruence.
Qed.

Lemma over_100_readings_refused_witness :
  post_meter_readings (Env.calm 10) db_with_later_sample
    (body_M1 5 (JArr (repeat voltage_230 101)))
  = (TooManyReadings, db_with_later_sample).
Proof.
  apply (over_100_readings_refused (Env.calm 10) db_with_later_sample
           (body_M1 5 (JArr (repeat voltage_230 101))) (repeat voltage_230 101));
    [reflexivity | rewrite repeat_length; lia | reflexivity].
Defined.

(** C3 as stated fails: 101 readings and no [meter_id] are answered with
    [InvalidPayload], not with [TooManyReadings]. *)
Lemma over_100_without_meter_id_is_invalid_payload :
  let b := Body.mk JUndefined None 5 (Some 1) None (JArr (repeat voltage_230 101)) in
  Body.readings b = JArr (repeat voltage_230 101)
  /\ (100 < List.length (repeat voltage_230 101))%nat
  /\ fst (post_meter_readings (Env.calm 10) Db.empty b) = InvalidPayload
  /\ fst (post_meter_readings (Env.calm 10) Db.empty b) <> TooManyReadings.
Proof.
  cbv zeta. split; [reflexivity|]. split; [rewrite repeat_length; lia|].
  split; [reflexivity|]. discriminate.
Qed.

(** C4, as the code has it.  The validator answers [InvalidPayload] exactly
    when [meter_id] is falsy (missing, [null], [false], [0] or the empty
    string) or [readings] is not an array; with a truthy [meter_id] and an
    array the handler never answers [InvalidPayload]. *)
Theorem invalid_payload_iff env db b :
  (validate b = Invalid <->
     truthy (Body.meter_id b) = false \/ isArray (Body.readings b) = false)
  /\ (fst (post_meter_readings env db b) = InvalidPayload <-> validate b = Invalid).
Proof.
  split.
  - unfold validate.
    destruct (truthy (Body.meter_id b)); simpl.
    + destruct (Body.readings b) as [| | | | |rs|]; simpl;
        try (split; [auto | reflexivity]).
      destruct (100 <? List.length rs)%nat; split; intros H;
        try discriminate; destruct H; discriminate.
    + split; auto.
  - unfold post_meter_readings.
    destruct (validate b); simpl; try (split; [reflexivity | reflexivity]);
      try (split; discriminate).
    destruct (Env.rejects env 0); [split; discriminate|].
    destruct (bind_meter_id _); [|split; discriminate].
    destruct (Env.rejects env 1); [split; discriminate|].
    destruct (insert_readings _ _ _ _ _ _ _) as [[] ?]; split; discriminate.
Qed.

(** C4 as stated fails: a non-empty [meter_id] with [readings] present as a
    string is answered with [InvalidPayload]. *)
Lemma present_non_array_readings_is_invalid_payload :
  let b := body_M1 5 (JStr "abc") in
  Body.meter_id b = JStr "M1"
  /\ Body.readings b <> JUndefined
  /\ validate b = Invalid
  /\ fst (post_meter_readings (Env.calm 10) Db.empty b) = InvalidPayload.
Proof.
  cbv zeta. split; [reflexivity|]. split; [discriminate|].
  split; reflexivity.
Qed.

(** C10.  A non-empty [meter_id] with an empty [readings] array is
    accepted: the answer is success with [readings_received = 0], the meter is
    upserted and [meter_readings] is untouched. *)
Theorem empty_readings_accepted env db b (s : string) :
  Body.meter_id b = JStr s -> s <> "" ->
  Body.readings b = JArr [] ->
  Env.rejects env 0 = false -> Env.rejects env 1 = false ->
  post_meter_readings env db b =
    (success (ReadingsReceived 0),
     Db.mk (upsert_meter (Env.sql_now env 1) s (Body.location b)
              (stringify_device_info (Body.device_info b)) (Db.meters db))
           (Db.meter_readings db) (Db.auto_increment db)).
Proof.
  intros Hm Hs Hr H0 H1. unfold post_meter_readings.
  rewrite (validate_array b []) by (rewrite ?Hm; auto using truthy_nonempty).
  simpl. now rewrite H0, H1, Hm.
Qed.

Lemma empty_readings_accepted_witness :
  post_meter_readings (Env.calm 10) Db.empty (body_M1 5 (JArr [])) =
    (success (ReadingsReceived 0), Db.mk [Meter.mk "M1" None "{}" 10 10] [] 1).
Proof.
  apply (empty_readings_accepted (Env.calm 10) Db.empty (body_M1 5 (JArr [])) "M1");
    [reflexivity | discriminate | reflexivity | reflexivity | reflexivity].
Defined.

(** ** Meter registry *)

Lemma find_meter_upsert now (mid : string) loc dev (tbl : list Meter.t) :
  find_meter mid (upsert_meter now mid loc dev tbl) =
    Some (Meter.mk mid loc dev
            (match find_meter mid tbl with
             | Some m => Meter.first_seen m
             | None => now
             end)
            now).
Proof.
  unfold find_meter. induction tbl as [|m tbl IH]; simpl.
  - now rewrite String.eqb_refl.
  - destruct (String.eqb (Meter.meter_id m) mid) eqn:E; simpl; rewrite E.
    + apply String.eqb_eq in E. now rewrite E.
    + exact IH.
Qed.

Lemma find_meter_upsert_other now (mid other : string) loc dev (tbl : list Meter.t) :
  other <> mid ->
  find_meter other (upsert_meter now mid loc dev tbl) = find_meter other tbl.
Proof.
  intros Hne. unfold find_meter. induction tbl as [|m tbl IH]; simpl.
  - destruct (String.eqb_spec mid other); [congruence|reflexivity].
  - destruct (String.eqb_spec (Meter.meter_id m) mid) as [E|E]; simpl.
    + destruct (String.eqb_spec (Meter.meter_id m) other); [congruence|reflexivity].
    + now rewrite IH.
Qed.

(** C5.  After two upserts of one [meter_id] the meter carries the
    [location], [device_info] and time of the second call as [last_seen], and
    the [first_seen] it had after the first call; a first upsert (no such
    meter before) creates it with [first_seen = last_seen], the time of that
    call, and a meter that was there keeps its [first_seen]. *)
Theorem upsert_twice_keeps_first_seen (tbl : list Meter.t) (mid : string)
    t1 l1 d1 t2 l2 d2 :
  exists m1 m2,
    find_meter mid (upsert_meter t1 mid l1 d1 tbl) = Some m1
    /\ find_meter mid
         (upsert_meter t2 mid l2 d2 (upsert_meter t1 mid l1 d1 tbl)) = Some m2
    /\ Meter.location m2 = l2
    /\ Meter.device_info m2 = d2
    /\ Meter.last_seen m2 = t2
    /\ Meter.first_seen m2 = Meter.first_seen m1
    /\ (find_meter mid tbl = None ->
        Meter.first_seen m1 = t1 /\ Meter.last_seen m1 = t1)
    /\ (forall m0, find_meter mid tbl = Some m0 ->
        Meter.first_seen m1 = Meter.first_seen m0 /\ Meter.last_seen m1 = t1).
Proof.
  eexists. eexists.
  split; [apply find_meter_upsert|].
  split; [rewrite find_meter_upsert, find_meter_upsert; reflexivity|].
  simpl. repeat split;
    match goal with Hf : find_meter _ _ = _ |- _ => now rewrite Hf end.
Qed.

Lemma upsert_twice_keeps_first_seen_witness :
  exists m1 m2,
    find_meter "M1" (upsert_meter 10 "M1" None "{}" []) = Some m1
    /\ find_meter "M1"
         (upsert_meter 70 "M1" (Some "roof") "{}" (upsert_meter 10 "M1" None "{}" []))
       = Some m2
    /\ Meter.location m2 = Some "roof"
    /\ Meter.device_info m2 = "{}"
    /\ Meter.last_seen m2 = 70
    /\ Meter.first_seen m2 = Meter.first_seen m1
    /\ Meter.first_seen m1 = 10 /\ Meter.last_seen m1 = 10.
Proof.
  destruct (upsert_twice_keeps_first_seen [] "M1" 10 None "{}" 70 (Some "roof") "{}")
    as (m1 & m2 & H1 & H2 & H3 & H4 & H5 & H6 & H7 & _).
  exists m1, m2. repeat split; try assumption; apply H7; reflexivity.
Defined.

(** ** Liveness *)

Lemma isOnline_iff (now last : Z) :
  isOnline now last = true <-> now - last < 120000.
Proof.
  unfold isOnline. cbv zeta. rewrite negb_true_iff.
  rewrite <- not_true_iff_false, Qle_bool_iff.
  unfold Qle, Qdiv, Qmult, Qinv, inject_Z. cbn [Qnum Qden Z.mul Pos.mul].
  lia.
Qed.

(** C8.  [isOnline] holds exactly when less than two minutes (120000 ms)
    lie between [last] and now: a meter last seen 90 seconds ago is online, one
    idle for 3 minutes is offline.  The meters listing decorates every meter
    with the status [isOnline] gives for its [last_seen] and returns the
    database as it received it. *)
Theorem liveness_is_two_minute_window :
  (forall now last, isOnline now last = true <-> now - last < 2 * 60 * 1000)
  /\ (forall now, isOnline now (now - 90 * 1000) = true)
  /\ (forall now, isOnline now (now - 3 * 60 * 1000) = false)
  /\ (forall env db, snd (get_meters env db) = db)
  /\ (forall env db data v,
        fst (get_meters env db) = success (MetersData data) ->
        In v data ->
        MeterView.status v =
          if isOnline (Env.date_now env) (date_of_timestamp (MeterView.last_seen v))
          then "online" else "offline").
Proof.
  split; [intros; apply isOnline_iff|].
  split; [intros; apply isOnline_iff; lia|].
  split.
  { intros now. apply not_true_iff_false. rewrite isOnline_iff. lia. }
  split.
  { intros env db. unfold get_meters. now destruct (Env.rejects env 0). }
  intros env db data v Hd Hv. unfold get_meters in Hd.
  destruct (Env.rejects env 0); [discriminate|].
  simpl in Hd. injection Hd as <-.
  apply in_map_iff in Hv. destruct Hv as (m & <- & _). reflexivity.
Qed.

Lemma liveness_is_two_minute_window_witness :
  isOnline 1000000 (1000000 - 90 * 1000) = true
  /\ isOnline 1000000 (1000000 - 3 * 60 * 1000) = false.
Proof.
  destruct liveness_is_two_minute_window as (_ & H90 & H180 & _).
  split; [apply H90 | apply H180].
Defined.

(** ** Sample reconstruction *)

Lemma push_row_timestamps (out : list Sample.t) (r : ReadingRow.t) (x : Sample.t) :
  In x (push_row out r) ->
  Sample.timestamp x = ReadingRow.timestamp r
  \/ exists y, In y out /\ Sample.timestamp y = Sample.timestamp x.
Proof.
  induction out as [|s out IH]; simpl.
  - intros [<-|[]]. now left.
  - destruct (Z.eqb_spec (Sample.timestamp s) (ReadingRow.timestamp r)) as [E|E];
      simpl.
    + intros [<-|Hx]; simpl; [now left|]. right. eauto.
    + intros [<-|Hx]; [right; eauto|].
      destruct (IH Hx) as [H|(y & Hy & H)]; [now left|right; eauto].
Qed.

Lemma push_row_sorted (out : list Sample.t) (r : ReadingRow.t) :
  StronglySorted most_recent_first out ->
  (forall s, In s out -> ReadingRow.timestamp r <= Sample.timestamp s) ->
  StronglySorted most_recent_first (push_row out r).
Proof.
  unfold most_recent_first.
  induction out as [|s out IH]; simpl; intros Hs Hle.
  - repeat constructor.
  - inversion Hs as [|? ? Hout Hall]; subst.
    destruct (Z.eqb_spec (Sample.timestamp s) (ReadingRow.timestamp r)) as [E|E].
    + constructor; [assumption|]. exact Hall.
    + constructor; [apply IH; auto|].
      rewrite Forall_forall in *. intros x Hx.
      destruct (push_row_timestamps _ _ _ Hx) as [H|(y & Hy & H)].
      * specialize (Hle s (or_introl eq_refl)). lia.
      * rewrite <- H. auto.
Qed.

Lemma group_sorted (rows : list ReadingRow.t) :
  forall out,
  StronglySorted most_recent_first out ->
  StronglySorted (fun a b => ReadingRow.timestamp b <= ReadingRow.timestamp a) rows ->
  (forall s r, In s out -> In r rows ->
     ReadingRow.timestamp r <= Sample.timestamp s) ->
  StronglySorted most_recent_first (fold_left push_row rows out).
Proof.
  induction rows as [|r rows IH]; simpl; intros out Hout Hrows Hle; [assumption|].
  inversion Hrows as [|? ? Hrest Hall]; subst.
  apply IH; [apply push_row_sorted; eauto | assumption |].
  intros s r' Hs Hr'.
  destruct (push_row_timestamps _ _ _ Hs) as [H|(y & Hy & H)].
  - rewrite H. rewrite Forall_forall in Hall. auto.
  - rewrite <- H. eauto.
Qed.

(** With one sample per key, the loop body updates the sample of the row's
    key, or appends a new sample when there is none. *)
Lemma push_row_spec (out : list Sample.t) (r : ReadingRow.t) :
  NoDup (map Sample.timestamp out) ->
  push_row out r =
    if existsb (fun s => Sample.timestamp s =? ReadingRow.timestamp r) out
    then map (push_into r) out
    else out ++ [Sample.mk (ReadingRow.timestamp r) (ReadingRow.sequence_number r)
                   [reading_of_row r]].
Proof.
  induction out as [|s out IH]; simpl; intros Hnd; [reflexivity|].
  inversion Hnd as [|? ? Hnotin Hnd']; subst.
  unfold push_into at 1.
  destruct (Z.eqb_spec (Sample.timestamp s) (ReadingRow.timestamp r)) as [E|E];
    simpl.
  - f_equal. rewrite <- (map_id out) at 1. apply map_ext_in.
    intros x Hx. unfold push_into.
    destruct (Z.eqb_spec (Sample.timestamp x) (ReadingRow.timestamp r)) as [E'|E'];
      [|reflexivity].
    exfalso. apply Hnotin. rewrite E, <- E'. now apply in_map.
  - rewrite (IH Hnd').
    now destruct (existsb _ out).
Qed.

Lemma push_row_NoDup (out : list Sample.t) (r : ReadingRow.t) :
  NoDup (map Sample.timestamp out) ->
  NoDup (map Sample.timestamp (push_row out r)).
Proof.
  induction out as [|s out IH]; simpl; intros Hnd.
  - constructor; [tauto|constructor].
  - inversion Hnd as [|? ? Hnotin Hnd']; subst.
    destruct (Z.eqb_spec (Sample.timestamp s) (ReadingRow.timestamp r)) as [E|E];
      simpl; [assumption|].
    constructor; [|auto].
    intros Hin. apply in_map_iff in Hin. destruct Hin as (x & Hx & Hin).
    destruct (push_row_timestamps _ _ _ Hin) as [H|(y & Hy & H)].
    + congruence.
    + apply Hnotin. rewrite <- Hx, <- H. now apply in_map.
Qed.

Lemma rows_at_snoc (t : Z) (done : list ReadingRow.t) (r : ReadingRow.t) :
  rows_at t (done ++ [r]) =
    rows_at t done ++ (if ReadingRow.timestamp r =? t then [r] else []).
Proof. unfold rows_at. rewrite filter_app. reflexivity. Qed.

Lemma push_row_invariant (out : list Sample.t) (done : list ReadingRow.t)
    (r : ReadingRow.t) :
  loop_invariant out done -> loop_invariant (push_row out r) (done ++ [r]).
Proof.
  intros (Hnd & Hsam & Hcov). split; [now apply push_row_NoDup|].
  rewrite (push_row_spec out r Hnd).
  destruct (existsb _ out) eqn:Ex.
  - split.
    + intros s' Hs'. apply in_map_iff in Hs'. destruct Hs' as (s & <- & Hs).
      specialize (Hsam s Hs). unfold push_into.
      destruct (Z.eqb_spec (Sample.timestamp s) (ReadingRow.timestamp r)) as [E|E];
        unfold sample_for in *; simpl Sample.timestamp; rewrite rows_at_snoc.
      * rewrite <- E, Z.eqb_refl.
        destruct (rows_at (Sample.timestamp s) done) as [|r0 l]; [discriminate|].
        injection Hsam as <-. simpl. now rewrite map_app.
      * destruct (Z.eqb_spec (ReadingRow.timestamp r) (Sample.timestamp s));
          [congruence|].
        now rewrite app_nil_r.
    + intros r' Hr'. apply in_app_or in Hr'. destruct Hr' as [Hr'|[<-|[]]].
      * destruct (Hcov r' Hr') as (s & Hs & E). exists (push_into r s).
        split; [now apply in_map|]. unfold push_into.
        now destruct (_ =? _).
      * apply existsb_exists in Ex. destruct Ex as (s & Hs & E).
        apply Z.eqb_eq in E. exists (push_into r s).
        split; [now apply in_map|]. unfold push_into.
        now destruct (_ =? _).
  - assert (Hnone : forall s, In s out ->
                      Sample.timestamp s <> ReadingRow.timestamp r).
    { intros s Hs E. apply not_true_iff_false in Ex. apply Ex.
      apply existsb_exists. exists s. split; [assumption|now apply Z.eqb_eq]. }
    split.
    + intros s' Hs'. apply in_app_or in Hs'. destruct Hs' as [Hs'|[<-|[]]].
      * unfold sample_for in *. rewrite rows_at_snoc.
        destruct (Z.eqb_spec (ReadingRow.timestamp r) (Sample.timestamp s')) as [E|E].
        { exfalso. eapply Hnone; eauto. }
        rewrite app_nil_r. auto.
      * unfold sample_for. simpl Sample.timestamp. rewrite rows_at_snoc, Z.eqb_refl.
        assert (Hempty : rows_at (ReadingRow.timestamp r) done = []).
        { unfold rows_at.
          destruct (filter _ done) as [|x l] eqn:F; [reflexivity|].
          assert (Hx : In x (filter
                      (fun r0 => ReadingRow.timestamp r0 =? ReadingRow.timestamp r) done))
            by (rewrite F; now left).
          apply filter_In in Hx. destruct Hx as (Hx & E). apply Z.eqb_eq in E.
          destruct (Hcov x Hx) as (s & Hs & E').
          exfalso. apply (Hnone s Hs). congruence. }
        rewrite Hempty. reflexivity.
    + intros r' Hr'. apply in_app_or in Hr'. destruct Hr' as [Hr'|[<-|[]]].
      * destruct (Hcov r' Hr') as (s & Hs & E). exists s.
        split; [apply in_or_app; now left|assumption].
      * eexists. split; [apply in_or_app; right; now left|reflexivity].
Qed.

Lemma fold_push_row_invariant (rows : list ReadingRow.t) :
  forall out done,
  loop_invariant out done ->
  loop_invariant (fold_left push_row rows out) (done ++ rows).
Proof.
  induction rows as [|r rows IH]; simpl; intros out done Hinv.
  - now rewrite app_nil_r.
  - replace (done ++ r :: rows) with ((done ++ [r]) ++ rows)
      by (now rewrite <- app_assoc).
    apply IH. now apply push_row_invariant.
Qed.

Lemma group_by_timestamp_invariant (rows : list ReadingRow.t) :
  loop_invariant (group_by_timestamp rows) rows.
Proof.
  apply (fold_push_row_invariant rows [] []).
  repeat split; simpl; try constructor; intros ? [].
Qed.

Lemma sample_for_Some (t : Z) (rows : list ReadingRow.t) (s : Sample.t) :
  sample_for t rows = Some s ->
  Sample.timestamp s = t
  /\ (exists r0, hd_error (rows_at t rows) = Some r0
                 /\ Sample.sequence_number s = ReadingRow.sequence_number r0)
  /\ Sample.readings s = map reading_of_row (rows_at t rows).
Proof.
  unfold sample_for. destruct (rows_at t rows) as [|r0 l]; [discriminate|].
  intros [= <-]. simpl. eauto.
Qed.

Lemma timestamp_order_of_select (mid : string) (n : Z) (tbl : list ReadingRow.t) :
  StronglySorted (fun a b => ReadingRow.timestamp b <= ReadingRow.timestamp a)
    (select_latest_rows mid n tbl).
Proof.
  unfold select_latest_rows. apply firstn_sorted.
  apply order_by_sorted.
  - intros; lia.
  - unfold timestamp_desc_id_desc; intros; lia.
  - unfold timestamp_desc_id_desc; intros; lia.
Qed.

Lemma filter_none {A : Type} (f : A -> bool) (l : list A) :
  (forall x, In x l -> f x = false) -> filter f l = [].
Proof.
  induction l as [|a l IH]; simpl; intros H; [reflexivity|].
  rewrite (H a) by auto. auto.
Qed.

Lemma sample_limit_not_zero (parsed : option Z) : sample_limit parsed <> 0.
Proof.
  destruct parsed as [n|]; simpl; [|discriminate].
  destruct (Z.eqb_spec n 0); [discriminate|assumption].
Qed.

(** ** Latest samples *)

(** C6.  For a sample count that is not negative and a store that answers, the
    latest-samples query fetches at most [limit * 10] rows of the meter, the
    first ones of its rows ordered by timestamp descending then id descending
    (ids grow with insertion: [post_meter_readings_follow_insertion]), where
    [limit] is the count asked for, 1 when it is absent, unparsable or 0.
    It groups the fetched rows by timestamp: every fetched row has its
    timestamp among the groups, there is one group per timestamp, most recent
    first, and each group carries the sequence number of the first fetched row
    of its timestamp and the readings of all of them in fetch order.  The
    answer is the first [limit] groups: at most [limit] samples, most recent
    first, and exactly [limit] when groups are left over. *)
Theorem latest_samples_contract env db (meterId : string) (parsed : option Z) :
  Env.rejects env 0 = false ->
  0 <= sample_limit parsed ->
  exists fetched rest data older,
    get_latest env db meterId parsed = (success (LatestData data), db)
    /\ (parsed = None \/ parsed = Some 0 -> sample_limit parsed = 1)
    /\ (forall n, parsed = Some n -> n <> 0 -> sample_limit parsed = n)
    /\ fetched = select_latest_rows meterId (sample_limit parsed * 10)
                   (Db.meter_readings db)
    /\ Z.of_nat (List.length fetched) <= sample_limit parsed * 10
    /\ Permutation (fetched ++ rest)
         (filter (fun r => String.eqb (ReadingRow.meter_id r) meterId)
            (Db.meter_readings db))
    /\ StronglySorted newest_first (fetched ++ rest)
    /\ (rest <> [] -> Z.of_nat (List.length fetched) = sample_limit parsed * 10)
    /\ group_by_timestamp fetched = data ++ older
    /\ (forall r, In r fetched ->
          exists s, In s (data ++ older)
                    /\ Sample.timestamp s = ReadingRow.timestamp r)
    /\ StronglySorted most_recent_first (data ++ older)
    /\ (forall s, In s (data ++ older) ->
          (exists r0, hd_error (rows_at (Sample.timestamp s) fetched) = Some r0
                      /\ Sample.sequence_number s = ReadingRow.sequence_number r0)
          /\ Sample.readings s =
               map reading_of_row (rows_at (Sample.timestamp s) fetched))
    /\ data = firstn (Z.to_nat (sample_limit parsed)) (group_by_timestamp fetched)
    /\ Z.of_nat (List.length data) <= sample_limit parsed
    /\ (older <> [] -> Z.of_nat (List.length data) = sample_limit parsed)
    /\ StronglySorted most_recent_first data.
Proof.
  intros Hcalm Hlim.
  assert (Hdefault : parsed = None \/ parsed = Some 0 -> sample_limit parsed = 1).
  { intros [->| ->]; reflexivity. }
  assert (Hasked : forall n, parsed = Some n -> n <> 0 -> sample_limit parsed = n).
  { intros n -> Hn. simpl. now destruct (Z.eqb_spec n 0). }
  set (limit := sample_limit parsed) in *.
  set (sorted := order_by timestamp_desc_id_desc
                   (filter (fun r => String.eqb (ReadingRow.meter_id r) meterId)
                      (Db.meter_readings db))).
  set (fetched := select_latest_rows meterId (limit * 10) (Db.meter_readings db)).
  set (groups := group_by_timestamp fetched).
  exists fetched, (skipn (Z.to_nat (limit * 10)) sorted),
         (firstn (Z.to_nat limit) groups), (skipn (Z.to_nat limit) groups).
  assert (Hneg : (limit * 10 <? 0) = false) by (apply Z.ltb_ge; lia).
  assert (Hgroups : StronglySorted most_recent_first groups).
  { unfold groups, group_by_timestamp. apply group_sorted.
    - constructor.
    - apply timestamp_order_of_select.
    - intros s r []. }
  destruct (group_by_timestamp_invariant fetched) as (_ & Hsam & Hcov).
  fold groups in Hsam, Hcov.
  split.
  { unfold get_latest. fold limit. rewrite Hcalm, Hneg. simpl.
    unfold slice0. destruct (Z.ltb_spec limit 0); [lia|reflexivity]. }
  split; [exact Hdefault|]. split; [exact Hasked|].
  split; [reflexivity|].
  split.
  { unfold fetched, select_latest_rows. fold sorted.
    pose proof (firstn_le_length (Z.to_nat (limit * 10)) sorted). lia. }
  unfold fetched at 1 2 3, select_latest_rows. fold sorted.
  rewrite firstn_skipn.
  split; [apply order_by_Permutation|].
  split.
  { apply order_by_sorted;
      eauto using newest_first_trans, timestamp_desc_id_desc_true,
                  timestamp_desc_id_desc_false. }
  split.
  { intros Hrest. rewrite length_firstn.
    destruct (Nat.le_gt_cases (List.length sorted) (Z.to_nat (limit * 10))) as [Hle|Hgt].
    - exfalso. apply Hrest. now apply skipn_all2.
    - lia. }
  rewrite firstn_skipn.
  split; [reflexivity|].
  split; [exact Hcov|].
  split; [exact Hgroups|].
  split.
  { intros s Hs.
    destruct (sample_for_Some _ _ _ (Hsam s Hs)) as (_ & Hhd & Hrd).
    split; assumption. }
  split; [reflexivity|].
  split.
  { pose proof (firstn_le_length (Z.to_nat limit) groups). lia. }
  split.
  { intros Holder. rewrite length_firstn.
    destruct (Nat.le_gt_cases (List.length groups) (Z.to_nat limit)) as [Hle|Hgt].
    - exfalso. apply Holder. now apply skipn_all2.
    - lia. }
  now apply firstn_sorted.
Qed.

(** C7.  For a meter id without any stored row, registered or not, the
    latest-samples query answers success with an empty [data] array, for any
    sample count that is not negative and a store that answers. *)
Theorem latest_of_unknown_meter_is_empty env db (meterId : string)
    (parsed : option Z) :
  Env.rejects env 0 = false ->
  0 <= sample_limit parsed ->
  (forall r, In r (Db.meter_readings db) -> ReadingRow.meter_id r <> meterId) ->
  get_latest env db meterId parsed = (success (LatestData []), db).
Proof.
  intros Hcalm Hlim Hnone. unfold get_latest, select_latest_rows.
  rewrite Hcalm. simpl orb.
  destruct (Z.ltb_spec (sample_limit parsed * 10) 0); [lia|].
  rewrite filter_none.
  - simpl order_by. rewrite firstn_nil. unfold slice0, group_by_timestamp.
    simpl fold_left. destruct (_ <? _); now rewrite firstn_nil.
  - intros r Hr. specialize (Hnone r Hr).
    now destruct (String.eqb_spec (ReadingRow.meter_id r) meterId).
Qed.

Lemma latest_of_unknown_meter_is_empty_witness :
  get_latest (Env.calm 300) db_with_later_sample "NON_EXISTENT" None
  = (success (LatestData []), db_with_later_sample).
Proof.
  apply latest_of_unknown_meter_is_empty.
  - reflexivity.
  - simpl. lia.
  - intros r [<-|[]]. discriminate.
Defined.

Lemma latest_samples_contract_witness :
  exists data older,
    get_latest (Env.calm 300) db_after_earlier_sample "M1" (Some 2)
    = (success (LatestData data), db_after_earlier_sample)
    /\ group_by_timestamp
         (select_latest_rows "M1" 20 (Db.meter_readings db_after_earlier_sample))
       = data ++ older
    /\ (forall r,
          In r (select_latest_rows "M1" 20
                  (Db.meter_readings db_after_earlier_sample)) ->
          exists s, In s (data ++ older)
                    /\ Sample.timestamp s = ReadingRow.timestamp r)
    /\ Z.of_nat (List.length data) <= 2
    /\ StronglySorted most_recent_first data.
Proof.
  destruct (latest_samples_contract (Env.calm 300) db_after_earlier_sample "M1" (Some 2))
    as (fetched & rest & data & older & H1 & _ & _ & Hf & _ & _ & _ & _ & Hg & Hc
        & _ & _ & _ & Hl & _ & Hs).
  - reflexivity.
  - simpl. lia.
  - exists data, older. subst fetched.
    split; [exact H1|]. split; [exact Hg|]. split; [exact Hc|].
    split; [exact Hl | exact Hs].
Defined.

(** ** Round trip of ingestion and query *)

Lemma rows_written_In env (rs : list Reading.t) :
  forall k mid ts seq id0 y,
  In y (rows_written env k mid ts seq rs id0) ->
  ReadingRow.meter_id y = mid /\ ReadingRow.timestamp y = ts
  /\ ReadingRow.sequence_number y = seq /\ id0 <= ReadingRow.id y.
Proof.
  induction rs as [|r rs IH]; simpl; intros k mid ts seq id0 y; [tauto|].
  intros [<-|Hy]; simpl; [repeat split; lia|].
  destruct (IH _ _ _ _ _ _ Hy) as (? & ? & ? & ?). repeat split; auto; lia.
Qed.

Lemma rows_written_readings env (rs : list Reading.t) :
  forall k mid ts seq id0,
  map reading_of_row (rows_written env k mid ts seq rs id0) = rs.
Proof.
  induction rs as [|r rs IH]; simpl; intros; [reflexivity|].
  rewrite IH. now destruct r.
Qed.

Lemma rows_written_length env (rs : list Reading.t) :
  forall k mid ts seq id0,
  List.length (rows_written env k mid ts seq rs id0) = List.length rs.
Proof.
  intros. rewrite <- (rows_written_readings env rs k mid ts seq id0) at 2.
  now rewrite length_map.
Qed.

(** The rows of one sample come back newest id first. *)
Lemma rows_written_order env (rs : list Reading.t) :
  forall k mid ts seq id0,
  order_by timestamp_desc_id_desc (rows_written env k mid ts seq rs id0)
  = rev (rows_written env k mid ts seq rs id0).
Proof.
  induction rs as [|r rs IH]; simpl; intros; [reflexivity|].
  fold (order_by timestamp_desc_id_desc
          (rows_written env (S k) mid ts seq rs (id0 + 1))).
  rewrite IH.
  rewrite <- (app_nil_r (rev (rows_written env (S k) mid ts seq rs (id0 + 1)))) at 1.
  rewrite insert_by_past_prefix; [reflexivity|].
  intros y Hy. apply in_rev in Hy.
  destruct (rows_written_In _ _ _ _ _ _ _ _ Hy) as (_ & Ht & _ & Hid).
  unfold timestamp_desc_id_desc, new_row. simpl. lia.
Qed.

Lemma filter_all {A : Type} (f : A -> bool) (l : list A) :
  (forall x, In x l -> f x = true) -> filter f l = l.
Proof.
  induction l as [|a l IH]; simpl; intros H; [reflexivity|].
  rewrite (H a) by auto. f_equal. auto.
Qed.

Lemma fold_push_row_head (rows : list ReadingRow.t) :
  forall s acc,
  exists s' acc',
    fold_left push_row rows (s :: acc) = s' :: acc'
    /\ Sample.timestamp s' = Sample.timestamp s.
Proof.
  induction rows as [|r rows IH]; simpl; intros s acc; [eauto|].
  destruct (Sample.timestamp s =? ReadingRow.timestamp r).
  - destruct (IH (Sample.mk (Sample.timestamp s) (Sample.sequence_number s)
                    (Sample.readings s ++ [reading_of_row r])) acc)
      as (s' & acc' & -> & E). eauto.
  - apply IH.
Qed.

(** What the latest query fetches after a sample that is the newest of its
    meter went in: the rows of that sample, newest id first, then older
    rows. *)
Lemma select_after_ingest env (m : string) (ts : Z) seq (rs : list Reading.t)
    (tbl : list ReadingRow.t) (id0 : Z) (k : nat) :
  (forall r, In r tbl -> ReadingRow.id r < id0) ->
  (forall r, In r tbl -> ReadingRow.meter_id r = m -> ReadingRow.timestamp r <= ts) ->
  (List.length rs <= 10)%nat ->
  exists older,
    select_latest_rows m 10 (tbl ++ rows_written env k m ts seq rs id0)
    = rev (rows_written env k m ts seq rs id0) ++ older.
Proof.
  intros Hid Hts Hlen. unfold select_latest_rows.
  rewrite filter_app.
  rewrite (filter_all _ (rows_written env k m ts seq rs id0)).
  2:{ intros y Hy. destruct (rows_written_In _ _ _ _ _ _ _ _ Hy) as (-> & _).
      apply String.eqb_refl. }
  rewrite order_by_app_top.
  2:{ intros o n Ho Hn. apply order_by_In in Hn.
      destruct (rows_written_In _ _ _ _ _ _ _ _ Hn) as (_ & Ht & _ & Hi).
      apply filter_In in Ho. destruct Ho as (Ho & Hm).
      apply String.eqb_eq in Hm.
      specialize (Hid o Ho). specialize (Hts o Ho Hm).
      unfold timestamp_desc_id_desc. lia. }
  rewrite rows_written_order, firstn_app.
  rewrite firstn_all2
    by (rewrite length_rev, rows_written_length; simpl; lia).
  eauto.
Qed.

(** C1, as the code has it.  On a store whose ids lie below the counter,
    after a sample with [N] readings, [1 <= N <= 10], is ingested under a
    timestamp [T] that no stored row of the meter exceeds, the latest-samples
    query with sample count 1 returns exactly one sample: its timestamp is [T],
    its sequence number the ingested one, and its readings contain all [N]
    ingested readings. *)
Theorem ingest_then_latest_roundtrip env env' db b (m : string)
    (rs : list Reading.t) (parsed : option Z) :
  ids_below_counter db ->
  Body.meter_id b = JStr m -> m <> "" ->
  Body.readings b = JArr rs ->
  (1 <= List.length rs <= 10)%nat ->
  (forall k, Env.rejects env k = false) ->
  (forall r, In r (Db.meter_readings db) -> ReadingRow.meter_id r = m ->
     ReadingRow.timestamp r <= Body.timestamp b) ->
  Env.rejects env' 0 = false ->
  sample_limit parsed = 1 ->
  exists s,
    get_latest env' (snd (post_meter_readings env db b)) m parsed
    = (success (LatestData [s]), snd (post_meter_readings env db b))
    /\ Sample.timestamp s = Body.timestamp b
    /\ Sample.sequence_number s = Body.sequence b
    /\ (forall r, In r rs -> In r (Sample.readings s)).
Proof.
  intros Hids Hm Hne Hr Hlen Hcalm Hnewest Hcalm' Hone.
  rewrite (post_meter_readings_calm env db b m rs) by (auto; lia).
  simpl snd.
  set (news := rows_written env 2 m (Body.timestamp b) (Body.sequence b) rs
                 (Db.auto_increment db)).
  destruct (select_after_ingest env m (Body.timestamp b) (Body.sequence b) rs
              (Db.meter_readings db) (Db.auto_increment db) 2)
    as (older & Hsel); [exact Hids | exact Hnewest | lia |].
  fold news in Hsel.
  unfold get_latest. rewrite Hone, Hcalm'. simpl orb. cbv iota.
  simpl Db.meter_readings. change (1 * 10) with 10. rewrite Hsel.
  assert (Hnews : forall y, In y news ->
            ReadingRow.timestamp y = Body.timestamp b
            /\ ReadingRow.sequence_number y = Body.sequence b).
  { intros y Hy. destruct (rows_written_In _ _ _ _ _ _ _ _ Hy) as (_ & ? & ? & _).
    now split. }
  destruct (rev news) as [|r1 tl] eqn:Erev.
  { exfalso. apply (f_equal (@List.length _)) in Erev.
    rewrite length_rev in Erev. unfold news in Erev.
    rewrite rows_written_length in Erev. simpl in Erev. lia. }
  assert (Hr1 : In r1 news) by (apply in_rev; rewrite Erev; now left).
  destruct (Hnews r1 Hr1) as (Ht1 & Hs1).
  pose proof (group_by_timestamp_invariant ((r1 :: tl) ++ older)) as (_ & Hsam & _).
  unfold group_by_timestamp in *. simpl app in *. simpl fold_left in *.
  destruct (fold_push_row_head (tl ++ older)
              (Sample.mk (ReadingRow.timestamp r1) (ReadingRow.sequence_number r1)
                 [reading_of_row r1]) [])
    as (s & acc & Hfold & Hts).
  rewrite Hfold in *. simpl in Hts.
  exists s. split; [reflexivity|].
  destruct (sample_for_Some _ _ _ (Hsam s (or_introl eq_refl)))
    as (_ & (r0 & Hhd & Hseq) & Hrd).
  rewrite Hts in Hhd, Hrd. unfold rows_at in Hhd, Hrd.
  simpl filter in Hhd, Hrd. rewrite Z.eqb_refl in Hhd, Hrd.
  simpl in Hhd. injection Hhd as <-.
  split; [congruence|]. split; [congruence|].
  intros r Hin.
  rewrite <- (rows_written_readings env rs 2 m (Body.timestamp b) (Body.sequence b)
                (Db.auto_increment db)) in Hin.
  fold news in Hin. apply in_map_iff in Hin. destruct Hin as (y & <- & Hy).
  rewrite Hrd. apply in_map.
  assert (Hin' : In y (r1 :: tl)) by (rewrite <- Erev; now apply in_rev in Hy).
  destruct Hin' as [<-|Hin']; [now left|]. right.
  apply filter_In. split; [apply in_or_app; now left|].
  destruct (Hnews y Hy) as (-> & _). apply Z.eqb_eq. congruence.
Qed.

Lemma ingest_then_latest_roundtrip_witness :
  exists s,
    get_latest (Env.calm 20)
      (snd (post_meter_readings (Env.calm 10) Db.empty
              (body_M1 5 (JArr [active_power_100; voltage_230]))))
      "M1" (Some 1)
    = (success (LatestData [s]),
       snd (post_meter_readings (Env.calm 10) Db.empty
              (body_M1 5 (JArr [active_power_100; voltage_230]))))
    /\ Sample.timestamp s = 5
    /\ Sample.sequence_number s = Some 1
    /\ (forall r, In r [active_power_100; voltage_230] -> In r (Sample.readings s)).
Proof.
  apply (ingest_then_latest_roundtrip (Env.calm 10) (Env.calm 20) Db.empty
           (body_M1 5 (JArr [active_power_100; voltage_230])) "M1"
           [active_power_100; voltage_230] (Some 1)).
  - intros r [].
  - reflexivity.
  - discriminate.
  - reflexivity.
  - simpl. lia.
  - reflexivity.
  - intros r [].
  - reflexivity.
  - reflexivity.
Defined.

(** C1 as stated fails: a sample stamped at second 100 is ingested for a
    meter that already holds a sample stamped at second 200; the latest-samples
    query with count 1 then returns the sample of second 200. *)
Lemma late_sample_is_not_the_latest :
  fst (post_meter_readings (Env.calm 260) db_with_later_sample
         (body_M1 100 (JArr [active_power_100])))
  = success (ReadingsReceived 1)
  /\ get_latest (Env.calm 300) db_after_earlier_sample "M1" (Some 1)
     = (success (LatestData [Sample.mk 200 (Some 1) [voltage_230]]),
        db_after_earlier_sample)
  /\ Sample.timestamp (Sample.mk 200 (Some 1) [voltage_230])
     <> Body.timestamp (body_M1 100 (JArr [active_power_100]))
  /\ ~ In active_power_100 (Sample.readings (Sample.mk 200 (Some 1) [voltage_230])).
Proof.
  split; [reflexivity|]. split; [reflexivity|]. split; [discriminate|].
  intros [H|[]]. discriminate.
Qed.

(** With an empty [readings] array nothing is stored, and a meter without
    rows has no latest sample: the round trip needs at least one reading. *)
Lemma empty_sample_is_not_returned :
  get_latest (Env.calm 20)
    (snd (post_meter_readings (Env.calm 10) Db.empty (body_M1 5 (JArr []))))
    "M1" (Some 1)
  = (success (LatestData []),
     snd (post_meter_readings (Env.calm 10) Db.empty (body_M1 5 (JArr [])))).
Proof. reflexivity. Qed.

(** MySQL refuses a negative [LIMIT]: the handler answers with the store
    error. *)
Lemma negative_limit_is_a_store_error env db (meterId : string) (n : Z) :
  n < 0 -> get_latest env db meterId (Some n) = (DbError, db).
Proof.
  intros Hn. unfold get_latest. simpl sample_limit.
  destruct (Z.eqb_spec n 0); [lia|].
  destruct (Z.ltb_spec (n * 10) 0); [|lia].
  now rewrite orb_true_r.
Qed.

(** ** Daily aggregate *)

Lemma filter_idempotent {A : Type} (f : A -> bool) (l : list A) :
  filter f (filter f l) = filter f l.
Proof.
  apply filter_all. intros x Hx. now apply filter_In in Hx.
Qed.

Lemma strictly_sorted_of_NoDup (l : list Z) :
  NoDup l ->
  StronglySorted (fun a b => b <= a) l ->
  StronglySorted (fun a b => b < a) l.
Proof.
  induction l as [|a l IH]; intros Hnd Hs; [constructor|].
  inversion Hnd as [|? ? Hnotin Hnd']; subst.
  inversion Hs as [|? ? Hs' Hall]; subst.
  constructor; [auto|].
  rewrite Forall_forall in *. intros x Hx.
  specialize (Hall x Hx).
  assert (x <> a) by (intros ->; contradiction). lia.
Qed.

Lemma StronglySorted_map {A B : Type} (R : A -> A -> Prop) (R' : B -> B -> Prop)
    (f : A -> B) (l : list A) :
  (forall a b, R a b -> R' (f a) (f b)) ->
  StronglySorted R l -> StronglySorted R' (map f l).
Proof.
  intros Hf. induction 1 as [|a l Hs IH Hall]; simpl; constructor; [assumption|].
  rewrite Forall_forall in *. intros y Hy.
  apply in_map_iff in Hy. destruct Hy as (x & <- & Hx). auto.
Qed.

Lemma AVG_None (values : list Q) : AVG values = None <-> values = [].
Proof. destruct values; simpl; split; congruence. Qed.

(** The dates the aggregate reports: those of the rows that pass the
    [WHERE] clause. *)
Lemma daily_dates now (tbl : list ReadingRow.t) (d : Daily.t) :
  In d (daily_aggregate now tbl) <->
  (exists r, In r (filter (since_7_days now) tbl)
             /\ DATE (ReadingRow.timestamp r) = Daily.date d)
  /\ d = Daily.mk (Daily.date d)
           (List.length (rows_of_date (Daily.date d) (filter (since_7_days now) tbl)))
           (AVG (active_power_values
                   (rows_of_date (Daily.date d) (filter (since_7_days now) tbl)))).
Proof.
  unfold daily_aggregate. rewrite in_map_iff. split.
  - intros (date & <- & Hdate). simpl.
    apply order_by_In, nodup_In, in_map_iff in Hdate.
    destruct Hdate as (r & <- & Hr). split; [eauto|reflexivity].
  - intros ((r & Hr & Hdate) & Hd). exists (Daily.date d). split; [now symmetry|].
    apply order_by_In, nodup_In, in_map_iff. eauto.
Qed.

(** The handler hands out the aggregate of the whole [meter_readings] table at
    the [NOW()] of its third store call. *)
Lemma get_dashboard_data_daily env db :
  (forall k, Env.rejects env k = false) ->
  exists meterInfo latest,
    get_dashboard_data env db =
      (success (DashboardData meterInfo latest
                  (daily_aggregate (Env.sql_now env 2) (Db.meter_readings db))),
       db).
Proof.
  intros Hcalm. unfold get_dashboard_data. rewrite !Hcalm. eauto.
Qed.

(** C9, as the code has it.  The daily aggregate is computed from the rows
    whose timestamp is not older than 7 days before evaluation time, and from
    no other row; there is no upper bound on the timestamp.  It has one entry
    per calendar date of those rows, with the number of rows of that date and
    the average of [value] over its rows with the active-power code, [NULL]
    exactly when the date has no such row, and the entries are in strictly
    decreasing order of date. *)
Theorem daily_aggregate_contract now (tbl : list ReadingRow.t) :
  (forall r, In r (filter (since_7_days now) tbl) <->
             In r tbl /\ now - 7 * 86400 <= ReadingRow.timestamp r)
  /\ daily_aggregate now tbl = daily_aggregate now (filter (since_7_days now) tbl)
  /\ (forall d, In d (daily_aggregate now tbl) ->
        rows_of_date (Daily.date d) (filter (since_7_days now) tbl) <> []
        /\ Daily.reading_count d =
             List.length (rows_of_date (Daily.date d) (filter (since_7_days now) tbl))
        /\ Daily.avg_power d =
             AVG (active_power_values
                    (rows_of_date (Daily.date d) (filter (since_7_days now) tbl)))
        /\ (Daily.avg_power d = None <->
            forall r,
              In r (rows_of_date (Daily.date d) (filter (since_7_days now) tbl)) ->
              ReadingRow.obis_code r <> active_power_code))
  /\ (forall r, In r tbl -> now - 7 * 86400 <= ReadingRow.timestamp r ->
        exists d, In d (daily_aggregate now tbl)
                  /\ Daily.date d = DATE (ReadingRow.timestamp r))
  /\ StronglySorted (fun d d' => Daily.date d' < Daily.date d)
       (daily_aggregate now tbl).
Proof.
  assert (Hwin : forall r, In r (filter (since_7_days now) tbl) <->
                   In r tbl /\ now - 7 * 86400 <= ReadingRow.timestamp r).
  { intros r. rewrite filter_In. unfold since_7_days. rewrite Z.leb_le. tauto. }
  split; [exact Hwin|].
  split.
  { unfold daily_aggregate. now rewrite filter_idempotent. }
  split.
  { intros d Hd. apply daily_dates in Hd. destruct Hd as ((r & Hr & Hdate) & Hd).
    split.
    { intros Hnil.
      assert (Hin : In r (rows_of_date (Daily.date d) (filter (since_7_days now) tbl))).
      { apply filter_In. split; [assumption|now apply Z.eqb_eq]. }
      rewrite Hnil in Hin. destruct Hin. }
    split; [rewrite Hd at 1; reflexivity|].
    split; [rewrite Hd at 1; reflexivity|].
    rewrite Hd at 1. simpl Daily.avg_power. rewrite AVG_None.
    unfold active_power_values. split.
    - intros Hnil r' Hr' Hcode.
      apply map_eq_nil in Hnil.
      assert (Hin : In r' (filter
                (fun r0 => String.eqb (ReadingRow.obis_code r0) active_power_code)
                (rows_of_date (Daily.date d) (filter (since_7_days now) tbl)))).
      { apply filter_In. split; [assumption|now apply String.eqb_eq]. }
      rewrite Hnil in Hin. destruct Hin.
    - intros Hnone. rewrite filter_none; [reflexivity|].
      intros x Hx. specialize (Hnone x Hx).
      now destruct (String.eqb_spec (ReadingRow.obis_code x) active_power_code). }
  split.
  { intros r Hr Hts.
    exists (Daily.mk (DATE (ReadingRow.timestamp r))
              (List.length (rows_of_date (DATE (ReadingRow.timestamp r))
                              (filter (since_7_days now) tbl)))
              (AVG (active_power_values
                      (rows_of_date (DATE (ReadingRow.timestamp r))
                         (filter (since_7_days now) tbl))))).
    split; [|reflexivity].
    apply daily_dates. simpl. split; [|reflexivity].
    exists r. split; [apply Hwin; auto|reflexivity]. }
  unfold daily_aggregate.
  apply StronglySorted_map with (R := fun a b => b < a); [auto|].
  apply strictly_sorted_of_NoDup.
  - eapply Permutation_NoDup;
      [apply Permutation_sym, order_by_Permutation | apply NoDup_nodup].
  - apply order_by_sorted; intros; lia.
Qed.

(** C9 as stated fails: a row stamped one day after evaluation time lies
    outside the trailing 7 days and is aggregated all the same. *)
Lemma future_row_is_aggregated :
  let now := 1000000 in
  let r := new_row 1 "M1" (now + 86400) (Some 1) active_power_100 now in
  ~ (now - 7 * 86400 <= ReadingRow.timestamp r <= now)
  /\ In r (filter (since_7_days now) [r])
  /\ daily_aggregate now [r] = [Daily.mk 12 1 (Some (inject_Z 100))].
Proof.
  cbv zeta. split; [simpl; lia|]. split; [now left|]. reflexivity.
Qed.

(** * Further properties of the server *)

(** ** API key middleware *)

Lemma split_on_not_nil (sep : Ascii.ascii) (s : string) : split_on sep s <> [].
Proof.
  destruct s as [|c s]; simpl; [discriminate|].
  destruct (Ascii.eqb c sep); [discriminate|].
  destruct (split_on sep s); discriminate.
Qed.

Lemma split_on_absent (sep : Ascii.ascii) (s : string) :
  occurs sep s = false -> split_on sep s = [s].
Proof.
  induction s as [|c s IH]; simpl; [reflexivity|].
  intros H. apply orb_false_iff in H. destruct H as (Hc & Hs).
  now rewrite Hc, (IH Hs).
Qed.

Lemma split_on_first (sep : Ascii.ascii) (a b : string) :
  occurs sep a = false ->
  split_on sep (a ++ String sep b)%string = a :: split_on sep b.
Proof.
  induction a as [|c a IH]; simpl.
  - now rewrite Ascii.eqb_refl.
  - intros H. apply orb_false_iff in H. destruct H as (Hc & Ha).
    now rewrite Hc, (IH Ha).
Qed.

(** Joining the pieces with the separator gives the string back. *)
Lemma split_on_concat (sep : Ascii.ascii) (s : string) :
  String.concat (String sep EmptyString) (split_on sep s) = s.
Proof.
  induction s as [|c s IH]; simpl; [reflexivity|].
  destruct (Ascii.eqb_spec c sep) as [->|Hne].
  - pose proof (split_on_not_nil sep s) as Hnn.
    destruct (split_on sep s) as [|w ws] eqn:E; [contradiction|].
    simpl in *. now rewrite IH.
  - pose proof (split_on_not_nil sep s) as Hnn.
    destruct (split_on sep s) as [|w ws] eqn:E; [contradiction|].
    destruct ws as [|w' ws]; simpl in *; now rewrite <- IH.
Qed.

Lemma valid_key_not_empty (k : string) : In k validKeys -> String.eqb k "" = false.
Proof. intros [<-|[<-|[]]]; reflexivity. Qed.

Lemma existsb_validKeys (k : string) :
  existsb (String.eqb k) validKeys = true <-> In k validKeys.
Proof.
  rewrite existsb_exists. split.
  - intros (x & Hx & E). apply String.eqb_eq in E. now subst.
  - intros H. exists k. split; [assumption|apply String.eqb_refl].
Qed.

Lemma append_not_empty (a b : string) (c : Ascii.ascii) :
  String.eqb (a ++ String c b)%string "" = false.
Proof. destruct a; reflexivity. Qed.

(** The middleware lets a request through exactly when the second
    space-separated piece of the header is a valid key. *)
Lemma validateApiKey_iff (header : option string) :
  validateApiKey header = true <->
  exists h first key rest,
    header = Some h /\ split_on " " h = first :: key :: rest /\ In key validKeys.
Proof.
  unfold validateApiKey, apiKey_of. split.
  - destruct header as [h|]; [|discriminate].
    destruct (String.eqb h ""); [discriminate|].
    destruct (split_on " " h) as [|first [|key rest]] eqn:E; simpl; try discriminate.
    intros H. apply andb_true_iff in H. destruct H as (_ & H).
    apply existsb_validKeys in H. exists h, first, key, rest. auto.
  - intros (h & first & key & rest & -> & E & Hk).
    destruct (String.eqb_spec h "") as [->|_]; [discriminate|].
    rewrite E. simpl nth_error. cbv iota.
    rewrite (valid_key_not_empty key Hk). simpl negb. simpl andb.
    now apply existsb_validKeys.
Qed.

(** X1.  The middleware reads the second space-separated piece of the
    [Authorization] header and nothing else: with a valid key there, the route
    runs the handler whatever the scheme word in front (it need not be
    "Bearer") and whatever follows the key after another space. *)
Theorem any_scheme_with_valid_key_is_let_through env db b
    (scheme key tail : string) :
  occurs " " scheme = false ->
  occurs " " key = false ->
  In key validKeys ->
  validateApiKey (Some (scheme ++ " " ++ key)%string) = true
  /\ validateApiKey (Some (scheme ++ " " ++ key ++ " " ++ tail)%string) = true
  /\ route_meter_readings env db (Some (scheme ++ " " ++ key)%string) b
     = post_meter_readings env db b
  /\ route_meter_readings env db (Some (scheme ++ " " ++ key ++ " " ++ tail)%string) b
     = post_meter_readings env db b.
Proof.
  intros Hs Hk Hv.
  assert (H1 : validateApiKey (Some (scheme ++ " " ++ key)%string) = true).
  { apply validateApiKey_iff. exists (scheme ++ " " ++ key)%string, scheme, key, [].
    split; [reflexivity|]. split; [|assumption].
    change (" " ++ key)%string with (String " " key).
    rewrite split_on_first by assumption. now rewrite split_on_absent. }
  assert (H2 : validateApiKey (Some (scheme ++ " " ++ key ++ " " ++ tail)%string) = true).
  { apply validateApiKey_iff.
    exists (scheme ++ " " ++ key ++ " " ++ tail)%string, scheme, key, (split_on " " tail).
    split; [reflexivity|]. split; [|assumption].
    change (" " ++ key ++ " " ++ tail)%string with (String " " (key ++ String " " tail)%string).
    rewrite split_on_first by assumption. now rewrite split_on_first. }
  unfold route_meter_readings. rewrite H1, H2. auto.
Qed.

Lemma any_scheme_with_valid_key_is_let_through_witness :
  validateApiKey (Some "Basic demo_key_12345") = true
  /\ validateApiKey (Some "Basic demo_key_12345 and more") = true.
Proof.
  destruct (any_scheme_with_valid_key_is_let_through (Env.calm 0) Db.empty
              (body_M1 0 (JArr [])) "Basic" "demo_key_12345" "and more")
    as (H1 & H2 & _); [reflexivity | reflexivity | right; left; reflexivity |].
  split; [exact H1 | exact H2].
Defined.

(** X2.  The route answers 401 and leaves the database alone, whatever the
    body and the state of the store, when the header is missing, when it holds
    no space (a bare key without a scheme word, even a valid one), and when
    its second piece is not one of the two keys. *)
Theorem unauthorized_requests_change_nothing env db b :
  route_meter_readings env db None b = (Unauthorized, db)
  /\ (forall h, occurs " " h = false ->
        route_meter_readings env db (Some h) b = (Unauthorized, db))
  /\ (forall h first key rest,
        split_on " " h = first :: key :: rest -> ~ In key validKeys ->
        route_meter_readings env db (Some h) b = (Unauthorized, db))
  /\ (forall header,
        validateApiKey header = false ->
        route_meter_readings env db header b = (Unauthorized, db)).
Proof.
  assert (Hroute : forall header, validateApiKey header = false ->
            route_meter_readings env db header b = (Unauthorized, db)).
  { intros header H. unfold route_meter_readings. now rewrite H. }
  split; [now apply Hroute|].
  split.
  { intros h Hh. apply Hroute. apply not_true_iff_false. intros H.
    apply validateApiKey_iff in H.
    destruct H as (h' & first & key & rest & [= <-] & E & _).
    rewrite split_on_absent in E by assumption. discriminate. }
  split; [|exact Hroute].
  intros h first key rest E Hk. apply Hroute. apply not_true_iff_false. intros H.
  apply validateApiKey_iff in H.
  destruct H as (h' & first' & key' & rest' & [= <-] & E' & Hk').
  rewrite E in E'. injection E' as _ <- _. contradiction.
Qed.

(** ** Ingestion under store failures *)

Lemma insert_readings_prefix env (rs : list Reading.t) :
  forall k mid ts seq db,
  insert_readings env k mid ts seq rs db =
    (Nat.eqb (stored_prefix env k (List.length rs)) (List.length rs),
     Db.mk (Db.meters db)
       (Db.meter_readings db
        ++ rows_written env k mid ts seq
             (firstn (stored_prefix env k (List.length rs)) rs)
             (Db.auto_increment db))
       (Db.auto_increment db
        + Z.of_nat (stored_prefix env k (List.length rs)))).
Proof.
  induction rs as [|r rs IH]; intros k mid ts seq db; simpl.
  - destruct db; simpl. now rewrite app_nil_r, Z.add_0_r.
  - destruct (Env.rejects env k).
    + destruct db; simpl. now rewrite app_nil_r, Z.add_0_r.
    + rewrite IH. simpl. rewrite <- app_assoc. simpl. do 2 f_equal. lia.
Qed.

Lemma stored_prefix_le env (n : nat) : forall k, (stored_prefix env k n <= n)%nat.
Proof.
  induction n as [|n IH]; intros k; simpl; [lia|].
  destruct (Env.rejects env k); [lia|]. specialize (IH (S k)). lia.
Qed.

Lemma stored_prefix_stops env (i : nat) :
  forall k n,
  (i < n)%nat ->
  (forall j, (k <= j < k + i)%nat -> Env.rejects env j = false) ->
  Env.rejects env (k + i) = true ->
  stored_prefix env k n = i.
Proof.
  induction i as [|i IH]; intros k n Hlt Hok Hrej.
  - destruct n; [lia|]. simpl. rewrite Nat.add_0_r in Hrej. now rewrite Hrej.
  - destruct n; [lia|]. simpl. rewrite (Hok k) by lia. f_equal.
    apply IH; [lia | intros; apply Hok; lia |].
    now replace (S k + i)%nat with (k + S i)%nat by lia.
Qed.

Lemma validate_Valid (b : Body.t) (rs : list Reading.t) :
  validate b = Valid rs ->
  truthy (Body.meter_id b) = true /\ Body.readings b = JArr rs
  /\ (List.length rs <= 100)%nat.
Proof.
  unfold validate.
  destruct (truthy (Body.meter_id b)); simpl; [|discriminate].
  destruct (Body.readings b) as [| | | | |xs|]; simpl; try discriminate.
  destruct (Nat.ltb_spec 100 (List.length xs)); [discriminate|].
  intros [= <-]. auto.
Qed.

(** What a request can do to the database: nothing, or one upsert followed by
    the rows of a prefix of the readings. *)
Lemma post_meter_readings_effect env db b :
  snd (post_meter_readings env db b) = db
  \/ exists mid rs n,
       Body.meter_id b = JStr mid /\ Body.readings b = JArr rs
       /\ (n <= List.length rs <= 100)%nat
       /\ snd (post_meter_readings env db b) =
            Db.mk
              (upsert_meter (Env.sql_now env 1) mid (Body.location b)
                 (stringify_device_info (Body.device_info b)) (Db.meters db))
              (Db.meter_readings db
               ++ rows_written env 2 mid (Body.timestamp b) (Body.sequence b)
                    (firstn n rs) (Db.auto_increment db))
              (Db.auto_increment db + Z.of_nat n).
Proof.
  unfold post_meter_readings.
  destruct (validate b) as [| |rs] eqn:V; [now left | now left |].
  apply validate_Valid in V. destruct V as (_ & Hr & Hlen).
  destruct (Env.rejects env 0); [now left|].
  destruct (Body.meter_id b) as [| | | |mid| |] eqn:Hm; simpl bind_meter_id;
    cbv iota; try now left.
  destruct (Env.rejects env 1); [now left|].
  right. exists mid, rs, (stored_prefix env 2 (List.length rs)).
  rewrite insert_readings_prefix. simpl.
  pose proof (stored_prefix_le env (List.length rs) 2).
  destruct (Nat.eqb _ _); simpl; repeat split; auto.
Qed.

(** X3.  The upsert and the row inserts are separate statements without a
    transaction: when the insert of the reading at index [i] is rejected, the
    answer is the 500 store error, and the meter upsert and the rows of the
    [i] readings before it stay in the database. *)
Theorem rejected_insert_keeps_earlier_rows env db b (s : string)
    (rs : list Reading.t) (i : nat) :
  Body.meter_id b = JStr s -> s <> "" ->
  Body.readings b = JArr rs ->
  (List.length rs <= 100)%nat ->
  (i < List.length rs)%nat ->
  (forall j, (j < 2 + i)%nat -> Env.rejects env j = false) ->
  Env.rejects env (2 + i) = true ->
  post_meter_readings env db b =
    (DbError,
     Db.mk (upsert_meter (Env.sql_now env 1) s (Body.location b)
              (stringify_device_info (Body.device_info b)) (Db.meters db))
           (Db.meter_readings db
            ++ rows_written env 2 s (Body.timestamp b) (Body.sequence b)
                 (firstn i rs) (Db.auto_increment db))
           (Db.auto_increment db + Z.of_nat i)).
Proof.
  intros Hm Hs Hr Hlen Hi Hok Hrej. unfold post_meter_readings.
  rewrite (validate_array b rs) by (rewrite ?Hm; auto using truthy_nonempty).
  destruct (Nat.ltb_spec 100 (List.length rs)); [lia|].
  rewrite (Hok 0%nat), (Hok 1%nat), Hm by lia. simpl bind_meter_id. cbv iota.
  rewrite insert_readings_prefix.
  rewrite (stored_prefix_stops env i 2 (List.length rs))
    by (auto; intros; apply Hok; lia).
  simpl Db.meters. simpl Db.meter_readings. simpl Db.auto_increment.
  destruct (Nat.eqb_spec i (List.length rs)); [lia|reflexivity].
Qed.

Lemma rejected_insert_keeps_earlier_rows_witness :
  post_meter_readings (Env.mk (fun k => Nat.eqb k 3) (fun _ => 10) 10000) Db.empty
    (body_M1 5 (JArr [active_power_100; voltage_230]))
  = (DbError,
     Db.mk [Meter.mk "M1" None "{}" 10 10]
       [new_row 1 "M1" 5 (Some 1) active_power_100 10] 2).
Proof.
  apply (rejected_insert_keeps_earlier_rows
           (Env.mk (fun k => Nat.eqb k 3) (fun _ => 10) 10000) Db.empty
           (body_M1 5 (JArr [active_power_100; voltage_230])) "M1"
           [active_power_100; voltage_230] 1).
  - reflexivity.
  - discriminate.
  - reflexivity.
  - simpl. lia.
  - simpl. lia.
  - intros [|[|[|j]]] Hj; try reflexivity. lia.
  - reflexivity.
Defined.

(** X4.  With the store unreachable (the first store call of a request is
    rejected) no handler changes the database; the three data queries and a
    valid ingestion are answered with the 500 store error, the validator's
    400 answers still come first, and the health probe alone answers with
    status 200, reporting "unhealthy" without a timestamp. *)
Theorem unreachable_store_answers env db :
  Env.rejects env 0 = true ->
  get_meters env db = (DbError, db)
  /\ (forall meterId parsed, get_latest env db meterId parsed = (DbError, db))
  /\ get_dashboard_data env db = (DbError, db)
  /\ get_health env db = (Health.mk 200 "unhealthy" None, db)
  /\ (forall b,
        snd (post_meter_readings env db b) = db
        /\ (validate b = Invalid ->
            fst (post_meter_readings env db b) = InvalidPayload)
        /\ (validate b = TooMany ->
            fst (post_meter_readings env db b) = TooManyReadings)
        /\ (forall rs, validate b = Valid rs ->
            fst (post_meter_readings env db b) = DbError)).
Proof.
  intros H. unfold get_meters, get_latest, get_dashboard_data, get_health,
    post_meter_readings. rewrite H. simpl.
  repeat split; try (destruct (validate b); reflexivity);
    intros; match goal with Hv : validate _ = _ |- _ => now rewrite Hv end.
Qed.

Lemma unreachable_store_answers_witness :
  get_health (Env.mk (fun _ => true) (fun _ => 10) 10000) db_with_later_sample
  = (Health.mk 200 "unhealthy" None, db_with_later_sample)
  /\ get_meters (Env.mk (fun _ => true) (fun _ => 10) 10000) db_with_later_sample
     = (DbError, db_with_later_sample).
Proof.
  destruct (unreachable_store_answers
              (Env.mk (fun _ => true) (fun _ => 10) 10000) db_with_later_sample)
    as (H1 & _ & _ & H4 & _); [reflexivity|].
  split; [exact H4 | exact H1].
Defined.

(** ** What ingestion keeps *)

Lemma upsert_meter_ids now (mid : string) loc dev (tbl : list Meter.t) :
  map Meter.meter_id (upsert_meter now mid loc dev tbl) =
    if existsb (fun m => String.eqb (Meter.meter_id m) mid) tbl
    then map Meter.meter_id tbl
    else map Meter.meter_id tbl ++ [mid].
Proof.
  induction tbl as [|m tbl IH]; simpl; [reflexivity|].
  destruct (String.eqb (Meter.meter_id m) mid); simpl; [reflexivity|].
  rewrite IH. now destruct (existsb _ tbl).
Qed.

Lemma NoDup_snoc {A : Type} (l : list A) (x : A) :
  NoDup l -> ~ In x l -> NoDup (l ++ [x]).
Proof.
  induction 1 as [|a l Ha Hl IH]; simpl; intros Hx.
  - constructor; [tauto|constructor].
  - constructor.
    + intros H. apply in_app_or in H. destruct H as [H|[<-|[]]]; tauto.
    + apply IH. tauto.
Qed.

Lemma upsert_meter_unique now (mid : string) loc dev (tbl : list Meter.t) :
  NoDup (map Meter.meter_id tbl) ->
  NoDup (map Meter.meter_id (upsert_meter now mid loc dev tbl)).
Proof.
  intros Hnd. rewrite upsert_meter_ids.
  destruct (existsb _ tbl) eqn:E; [assumption|].
  apply NoDup_snoc; [assumption|].
  intros Hin. apply in_map_iff in Hin. destruct Hin as (m & Hm & Hin).
  apply not_true_iff_false in E. apply E. apply existsb_exists.
  exists m. split; [assumption|]. now apply String.eqb_eq.
Qed.

Lemma upsert_meter_registers now (mid : string) loc dev (tbl : list Meter.t) :
  In mid (map Meter.meter_id (upsert_meter now mid loc dev tbl))
  /\ incl (map Meter.meter_id tbl)
          (map Meter.meter_id (upsert_meter now mid loc dev tbl)).
Proof.
  rewrite upsert_meter_ids. destruct (existsb _ tbl) eqn:E.
  - split; [|apply incl_refl].
    apply existsb_exists in E. destruct E as (m & Hm & E).
    apply String.eqb_eq in E. subst mid. now apply in_map.
  - split; [apply in_or_app; right; now left|].
    intros x Hx. apply in_or_app. now left.
Qed.

Lemma rows_written_of_prefix env (rs : list Reading.t) (n k : nat) mid ts seq id0
    (r : ReadingRow.t) :
  In r (rows_written env k mid ts seq (firstn n rs) id0) ->
  ReadingRow.meter_id r = mid /\ ReadingRow.timestamp r = ts
  /\ ReadingRow.sequence_number r = seq /\ In (reading_of_row r) rs.
Proof.
  intros Hr.
  destruct (rows_written_In _ _ _ _ _ _ _ _ Hr) as (Hm & Ht & Hs & _).
  repeat split; try assumption.
  apply (firstn_In n).
  rewrite <- (rows_written_readings env (firstn n rs) k mid ts seq id0).
  now apply in_map.
Qed.

(** X5.  Ingestion only ever appends to [meter_readings]: whatever the
    request and whatever the store rejects, the rows stored before stay as
    they were and in place, the counter advances by the number of rows added,
    and every added row carries the meter id, timestamp and sequence number of
    the request and one of its readings.  ([meter_id] a string or falsy.) *)
Theorem ingestion_only_appends env db b :
  meter_id_in_model b ->
  exists added,
    Db.meter_readings (snd (post_meter_readings env db b))
    = Db.meter_readings db ++ added
    /\ Db.auto_increment (snd (post_meter_readings env db b))
       = Db.auto_increment db + Z.of_nat (List.length added)
    /\ (forall r, In r added ->
          Body.meter_id b = JStr (ReadingRow.meter_id r)
          /\ ReadingRow.timestamp r = Body.timestamp b
          /\ ReadingRow.sequence_number r = Body.sequence b
          /\ exists rs, Body.readings b = JArr rs /\ In (reading_of_row r) rs).
Proof.
  intros _.
  destruct (post_meter_readings_effect env db b)
    as [->|(mid & rs & n & Hm & Hr & Hn & ->)].
  - exists []. rewrite app_nil_r, Z.add_0_r.
    split; [reflexivity|]. split; [reflexivity|]. intros r [].
  - eexists. split; [reflexivity|]. simpl Db.auto_increment.
    split.
    + rewrite rows_written_length, length_firstn. f_equal. lia.
    + intros r Hin. apply rows_written_of_prefix in Hin.
      destruct Hin as (-> & Ht & Hs & Hin). repeat split; eauto.
Qed.

(** X6.  The registry keeps one row per [meter_id] and never loses a
    meter: starting from the empty database, every request, accepted or not
    and whatever the store rejects, leaves the meter ids pairwise distinct,
    keeps every id that was registered, and adds at most one meter.
    ([meter_id] a string or falsy.) *)
Theorem registry_keeps_unique_meters :
  unique_meter_ids Db.empty
  /\ forall env db b,
       meter_id_in_model b ->
       (unique_meter_ids db -> unique_meter_ids (snd (post_meter_readings env db b)))
       /\ incl (map Meter.meter_id (Db.meters db))
               (map Meter.meter_id (Db.meters (snd (post_meter_readings env db b))))
       /\ (List.length (Db.meters (snd (post_meter_readings env db b)))
           <= S (List.length (Db.meters db)))%nat.
Proof.
  split; [constructor|]. intros env db b _.
  destruct (post_meter_readings_effect env db b)
    as [->|(mid & rs & n & Hm & Hr & Hn & ->)].
  - split; [auto|]. split; [apply incl_refl|lia].
  - unfold unique_meter_ids. simpl Db.meters.
    split; [apply upsert_meter_unique|].
    split; [apply upsert_meter_registers|].
    rewrite <- (length_map Meter.meter_id), upsert_meter_ids.
    destruct (existsb _ _); rewrite ?length_app, !length_map; simpl; lia.
Qed.

(** X7.  The foreign key of [meter_readings] is never violated: starting
    from the empty database, after every request, whatever the store rejects,
    each stored reading row names a registered meter (the upsert comes before
    the inserts).  ([meter_id] a string or falsy.) *)
Theorem readings_always_reference_a_meter :
  readings_reference_meters Db.empty
  /\ forall env db b,
       meter_id_in_model b ->
       readings_reference_meters db ->
       readings_reference_meters (snd (post_meter_readings env db b)).
Proof.
  split; [intros r []|]. intros env db b _ Hfk.
  destruct (post_meter_readings_effect env db b)
    as [->|(mid & rs & n & Hm & Hr & Hn & ->)]; [assumption|].
  intros r Hin. simpl in *.
  destruct (upsert_meter_registers (Env.sql_now env 1) mid (Body.location b)
              (stringify_device_info (Body.device_info b)) (Db.meters db))
    as (Hmid & Hincl).
  apply in_app_or in Hin. destruct Hin as [Hin|Hin].
  - apply Hincl. now apply Hfk.
  - apply rows_written_of_prefix in Hin. destruct Hin as (-> & _). exact Hmid.
Qed.

(** X8.  Ingestion for one meter leaves every other meter alone: for a meter
    id other than the request's, the registry entry, the stored rows and the
    answer of the latest-samples query are the same before and after, whatever
    the store rejects.  ([meter_id] a string or falsy.) *)
Theorem ingestion_leaves_other_meters_alone env db b (other : string) :
  meter_id_in_model b ->
  Body.meter_id b <> JStr other ->
  find_meter other (Db.meters (snd (post_meter_readings env db b)))
  = find_meter other (Db.meters db)
  /\ rows_of_meter other (Db.meter_readings (snd (post_meter_readings env db b)))
     = rows_of_meter other (Db.meter_readings db)
  /\ forall env' parsed,
       fst (get_latest env' (snd (post_meter_readings env db b)) other parsed)
       = fst (get_latest env' db other parsed).
Proof.
  intros _ Hother.
  assert (Hrows :
    rows_of_meter other (Db.meter_readings (snd (post_meter_readings env db b)))
    = rows_of_meter other (Db.meter_readings db)
    /\ find_meter other (Db.meters (snd (post_meter_readings env db b)))
       = find_meter other (Db.meters db)).
  { destruct (post_meter_readings_effect env db b)
      as [->|(mid & rs & n & Hm & Hr & Hn & ->)]; [now split|].
    assert (Hne : other <> mid) by congruence.
    simpl. split; [|now apply find_meter_upsert_other].
    unfold rows_of_meter. rewrite filter_app.
    rewrite (filter_none _ (rows_written env 2 mid _ _ _ _)); [apply app_nil_r|].
    intros r Hin. apply rows_written_of_prefix in Hin. destruct Hin as (-> & _).
    destruct (String.eqb_spec mid other); congruence. }
  destruct Hrows as (Hrows & Hfind). split; [assumption|]. split; [assumption|].
  intros env' parsed. unfold get_latest, select_latest_rows.
  unfold rows_of_meter in Hrows. rewrite Hrows.
  now destruct (Env.rejects env' 0 || _).
Qed.

Lemma ingestion_leaves_other_meters_alone_witness :
  find_meter "M2"
    (Db.meters
       (snd (post_meter_readings (Env.calm 400) db_two_meters
               (body_M1 300 (JArr [voltage_230; active_power_100])))))
  = Some (Meter.mk "M2" (Some "roof") "{}" 255 255)
  /\ rows_of_meter "M2"
       (Db.meter_readings
          (snd (post_meter_readings (Env.calm 400) db_two_meters
                  (body_M1 300 (JArr [voltage_230; active_power_100])))))
     = [new_row 2 "M2" 150 (Some 7) active_power_100 255]
  /\ fst (get_latest (Env.calm 500)
            (snd (post_meter_readings (Env.calm 400) db_two_meters
                    (body_M1 300 (JArr [voltage_230; active_power_100]))))
            "M2" None)
     = success (LatestData [Sample.mk 150 (Some 7) [active_power_100]]).
Proof.
  destruct (ingestion_leaves_other_meters_alone (Env.calm 400) db_two_meters
              (body_M1 300 (JArr [voltage_230; active_power_100])) "M2")
    as (Hfind & Hrows & Hlatest).
  - right. exists "M1". reflexivity.
  - discriminate.
  - rewrite Hfind, Hrows, (Hlatest (Env.calm 500) None).
    split; [reflexivity|]. split; reflexivity.
Defined.

Lemma ingestion_only_appends_witness :
  exists added,
    Db.meter_readings
      (snd (post_meter_readings (Env.calm 10) db_with_later_sample
              (body_M1 5 (JArr [active_power_100]))))
    = Db.meter_readings db_with_later_sample ++ added.
Proof.
  destruct (ingestion_only_appends (Env.calm 10) db_with_later_sample
              (body_M1 5 (JArr [active_power_100])))
    as (added & H & _); [right; exists "M1"; reflexivity|].
  exists added. exact H.
Defined.

(** ** What the latest-samples query returns after an ingestion *)

Lemma rows_written_id_lt env (rs : list Reading.t) :
  forall k mid ts seq id0 y,
  In y (rows_written env k mid ts seq rs id0) ->
  ReadingRow.id y < id0 + Z.of_nat (List.length rs).
Proof.
  induction rs as [|r rs IH]; simpl List.length; simpl rows_written;
    intros k mid ts seq id0 y; [intros []|].
  intros [<-|Hy]; [simpl; lia|].
  specialize (IH _ _ _ _ _ _ Hy). lia.
Qed.

(** The ordered rows of a meter after a sample that is its newest went in:
    the new rows, newest id first, ahead of the rows that were there. *)
Lemma order_after_ingest env (m : string) (ts : Z) seq (rs : list Reading.t)
    (tbl : list ReadingRow.t) (id0 : Z) (k : nat) :
  (forall r, In r tbl -> ReadingRow.id r < id0) ->
  (forall r, In r tbl -> ReadingRow.meter_id r = m -> ReadingRow.timestamp r <= ts) ->
  order_by timestamp_desc_id_desc
    (filter (fun r => String.eqb (ReadingRow.meter_id r) m)
       (tbl ++ rows_written env k m ts seq rs id0))
  = rev (rows_written env k m ts seq rs id0)
    ++ order_by timestamp_desc_id_desc
         (filter (fun r => String.eqb (ReadingRow.meter_id r) m) tbl).
Proof.
  intros Hid Hts. rewrite filter_app.
  rewrite (filter_all _ (rows_written env k m ts seq rs id0)).
  2:{ intros y Hy. destruct (rows_written_In _ _ _ _ _ _ _ _ Hy) as (-> & _).
      apply String.eqb_refl. }
  rewrite order_by_app_top; [now rewrite rows_written_order|].
  intros o n Ho Hn. apply order_by_In in Hn.
  destruct (rows_written_In _ _ _ _ _ _ _ _ Hn) as (_ & Ht & _ & Hi).
  apply filter_In in Ho. destruct Ho as (Ho & Hm). apply String.eqb_eq in Hm.
  specialize (Hid o Ho). specialize (Hts o Ho Hm).
  unfold timestamp_desc_id_desc. lia.
Qed.

Lemma fold_push_row_block (rows : list ReadingRow.t) :
  forall s acc,
  (forall r, In r rows -> ReadingRow.timestamp r = Sample.timestamp s) ->
  fold_left push_row rows (s :: acc)
  = Sample.mk (Sample.timestamp s) (Sample.sequence_number s)
      (Sample.readings s ++ map reading_of_row rows) :: acc.
Proof.
  induction rows as [|r rows IH]; intros s acc Hall; simpl.
  - rewrite app_nil_r. now destruct s.
  - rewrite (Hall r) by now left. rewrite Z.eqb_refl.
    rewrite IH by (intros; simpl; apply Hall; now right).
    simpl. now rewrite <- app_assoc.
Qed.

Lemma fold_push_row_skip (rows : list ReadingRow.t) :
  forall s acc,
  (forall r, In r rows -> ReadingRow.timestamp r <> Sample.timestamp s) ->
  fold_left push_row rows (s :: acc) = s :: fold_left push_row rows acc.
Proof.
  induction rows as [|r rows IH]; intros s acc Hall; simpl; [reflexivity|].
  destruct (Z.eqb_spec (Sample.timestamp s) (ReadingRow.timestamp r)) as [E|E].
  - exfalso. apply (Hall r); [now left|congruence].
  - apply IH. intros; apply Hall; now right.
Qed.

(** A fetch that opens with a block of rows of one timestamp, followed by
    rows of other timestamps, opens the result with the sample of the block. *)
Lemma group_head_block (block rest : list ReadingRow.t) (t : Z) (sq : option Z) :
  block <> [] ->
  (forall r, In r block ->
     ReadingRow.timestamp r = t /\ ReadingRow.sequence_number r = sq) ->
  (forall r, In r rest -> ReadingRow.timestamp r <> t) ->
  group_by_timestamp (block ++ rest)
  = Sample.mk t sq (map reading_of_row block) :: group_by_timestamp rest.
Proof.
  intros Hne Hblock Hrest. destruct block as [|r1 tl]; [contradiction|].
  unfold group_by_timestamp. simpl. rewrite fold_left_app.
  destruct (Hblock r1 (or_introl eq_refl)) as (Ht & Hs).
  rewrite fold_push_row_block
    by (simpl; intros r Hr; rewrite Ht; apply Hblock; now right).
  simpl. rewrite Ht, Hs.
  apply fold_push_row_skip. simpl. exact Hrest.
Qed.

Lemma rows_written_not_nil env (rs : list Reading.t) k mid ts seq id0 :
  rs <> [] -> rev (rows_written env k mid ts seq rs id0) <> [].
Proof.
  intros Hne H. apply (f_equal (@List.length _)) in H.
  rewrite length_rev, rows_written_length in H.
  destruct rs; [contradiction|discriminate].
Qed.

(** X9.  Readings come back newest row first, that is in the reverse of the
    order of the request.  After a sample with [1 <= N <= 10] readings is
    ingested under a timestamp later than every stored row of the meter, the
    latest-samples query with count 1 returns exactly the sample with that
    timestamp and sequence number and the readings of the request
    reversed. *)
Theorem latest_lists_readings_in_reverse env env' db b (m : string)
    (rs : list Reading.t) (parsed : option Z) :
  ids_below_counter db ->
  Body.meter_id b = JStr m -> m <> "" ->
  Body.readings b = JArr rs ->
  (1 <= List.length rs <= 10)%nat ->
  (forall k, Env.rejects env k = false) ->
  (forall r, In r (Db.meter_readings db) -> ReadingRow.meter_id r = m ->
     ReadingRow.timestamp r < Body.timestamp b) ->
  Env.rejects env' 0 = false ->
  sample_limit parsed = 1 ->
  get_latest env' (snd (post_meter_readings env db b)) m parsed
  = (success
       (LatestData [Sample.mk (Body.timestamp b) (Body.sequence b) (rev rs)]),
     snd (post_meter_readings env db b)).
Proof.
  intros Hids Hm Hne Hr Hlen Hcalm Hfresh Hcalm' Hone.
  rewrite (post_meter_readings_calm env db b m rs) by (auto; lia). simpl snd.
  unfold get_latest, select_latest_rows. rewrite Hone, Hcalm'. simpl orb.
  cbv iota. simpl Db.meter_readings. change (Z.to_nat (1 * 10)) with 10%nat.
  rewrite order_after_ingest;
    [| exact Hids | intros r Hin Hmr; specialize (Hfresh r Hin Hmr); lia].
  rewrite firstn_app, length_rev, rows_written_length.
  rewrite firstn_all2 by (rewrite length_rev, rows_written_length; lia).
  rewrite (group_head_block _ _ (Body.timestamp b) (Body.sequence b)).
  - rewrite map_rev, rows_written_readings. reflexivity.
  - apply rows_written_not_nil. intros ->. simpl in Hlen. lia.
  - intros r Hin. apply in_rev in Hin.
    destruct (rows_written_In _ _ _ _ _ _ _ _ Hin) as (_ & ? & ? & _). now split.
  - intros r Hin. apply firstn_In, order_by_In, filter_In in Hin.
    destruct Hin as (Hin & Hmr). apply String.eqb_eq in Hmr.
    specialize (Hfresh r Hin Hmr). lia.
Qed.

Lemma latest_lists_readings_in_reverse_witness :
  get_latest (Env.calm 300)
    (snd (post_meter_readings (Env.calm 260) db_with_later_sample
            (body_M1 400 (JArr [active_power_100; voltage_230]))))
    "M1" None
  = (success (LatestData [Sample.mk 400 (Some 1) [voltage_230; active_power_100]]),
     snd (post_meter_readings (Env.calm 260) db_with_later_sample
            (body_M1 400 (JArr [active_power_100; voltage_230])))).
Proof.
  apply (latest_lists_readings_in_reverse (Env.calm 260) (Env.calm 300)
           db_with_later_sample
           (body_M1 400 (JArr [active_power_100; voltage_230])) "M1"
           [active_power_100; voltage_230] None).
  - intros r [<-|[]]. simpl. lia.
  - reflexivity.
  - discriminate.
  - reflexivity.
  - simpl. lia.
  - reflexivity.
  - intros r [<-|[]] _. simpl. lia.
  - reflexivity.
  - reflexivity.
Defined.

(** X10.  The over-fetch is a row limit.  After a sample with more than 10
    readings is ingested under a timestamp no stored row of the meter
    exceeds, the latest-samples query with count 1 returns one sample with
    exactly 10 readings, those of the last 10 elements of the request, newest
    first: the other readings of the sample are not returned. *)
Theorem latest_truncates_large_samples env env' db b (m : string)
    (rs : list Reading.t) (parsed : option Z) :
  ids_below_counter db ->
  Body.meter_id b = JStr m -> m <> "" ->
  Body.readings b = JArr rs ->
  (10 < List.length rs <= 100)%nat ->
  (forall k, Env.rejects env k = false) ->
  (forall r, In r (Db.meter_readings db) -> ReadingRow.meter_id r = m ->
     ReadingRow.timestamp r <= Body.timestamp b) ->
  Env.rejects env' 0 = false ->
  sample_limit parsed = 1 ->
  get_latest env' (snd (post_meter_readings env db b)) m parsed
  = (success
       (LatestData
          [Sample.mk (Body.timestamp b) (Body.sequence b) (firstn 10 (rev rs))]),
     snd (post_meter_readings env db b))
  /\ List.length (firstn 10 (rev rs)) = 10%nat.
Proof.
  intros Hids Hm Hne Hr Hlen Hcalm Hnewest Hcalm' Hone.
  split; [|rewrite length_firstn, length_rev; lia].
  rewrite (post_meter_readings_calm env db b m rs) by (auto; lia). simpl snd.
  unfold get_latest, select_latest_rows. rewrite Hone, Hcalm'. simpl orb.
  cbv iota. simpl Db.meter_readings. change (Z.to_nat (1 * 10)) with 10%nat.
  rewrite order_after_ingest; [| exact Hids | exact Hnewest].
  rewrite firstn_app, length_rev, rows_written_length.
  replace (10 - List.length rs)%nat with 0%nat by lia.
  rewrite firstn_0.
  rewrite (group_head_block _ _ (Body.timestamp b) (Body.sequence b)).
  - rewrite <- firstn_map, map_rev, rows_written_readings. reflexivity.
  - intros H. apply (f_equal (@List.length _)) in H.
    rewrite length_firstn, length_rev, rows_written_length in H.
    change (@List.length ReadingRow.t []) with 0%nat in H. lia.
  - intros r Hin. apply firstn_In, in_rev in Hin.
    destruct (rows_written_In _ _ _ _ _ _ _ _ Hin) as (_ & ? & ? & _). now split.
  - intros r [].
Qed.

Lemma latest_truncates_large_samples_witness :
  fst (get_latest (Env.calm 300)
         (snd (post_meter_readings (Env.calm 260) Db.empty
                 (body_M1 5 (JArr (active_power_100 :: repeat voltage_230 10)))))
         "M1" (Some 1))
  = success (LatestData [Sample.mk 5 (Some 1) (repeat voltage_230 10)]).
Proof.
  destruct (latest_truncates_large_samples (Env.calm 260) (Env.calm 300) Db.empty
              (body_M1 5 (JArr (active_power_100 :: repeat voltage_230 10))) "M1"
              (active_power_100 :: repeat voltage_230 10) (Some 1))
    as (H & _).
  - intros r [].
  - reflexivity.
  - discriminate.
  - reflexivity.
  - simpl. lia.
  - reflexivity.
  - intros r [].
  - reflexivity.
  - reflexivity.
  - rewrite H. reflexivity.
Defined.

(** X11.  Ingestion does not deduplicate.  When the same sample ([N]
    readings, [2 N <= 10]) is accepted twice under a timestamp later than
    every stored row of the meter, [2 N] rows are stored and the
    latest-samples query with count 1 returns one sample in which every
    reading of the request appears twice. *)
Theorem retransmitted_sample_is_stored_twice env1 env2 env' db b (m : string)
    (rs : list Reading.t) (parsed : option Z) :
  ids_below_counter db ->
  Body.meter_id b = JStr m -> m <> "" ->
  Body.readings b = JArr rs ->
  (1 <= List.length rs)%nat -> (2 * List.length rs <= 10)%nat ->
  (forall k, Env.rejects env1 k = false) ->
  (forall k, Env.rejects env2 k = false) ->
  (forall r, In r (Db.meter_readings db) -> ReadingRow.meter_id r = m ->
     ReadingRow.timestamp r < Body.timestamp b) ->
  Env.rejects env' 0 = false ->
  sample_limit parsed = 1 ->
  let db2 :=
    snd (post_meter_readings env2 (snd (post_meter_readings env1 db b)) b) in
  List.length (Db.meter_readings db2)
  = (List.length (Db.meter_readings db) + 2 * List.length rs)%nat
  /\ get_latest env' db2 m parsed
     = (success
          (LatestData
             [Sample.mk (Body.timestamp b) (Body.sequence b) (rev rs ++ rev rs)]),
        db2).
Proof.
  intros Hids Hm Hne Hr Hlen1 Hlen2 Hcalm1 Hcalm2 Hfresh Hcalm' Hone. cbv zeta.
  rewrite (post_meter_readings_calm env1 db b m rs) by (auto; lia). simpl snd.
  rewrite (post_meter_readings_calm env2 _ b m rs) by (auto; lia). simpl snd.
  simpl Db.meter_readings. simpl Db.auto_increment.
  set (news1 := rows_written env1 2 m (Body.timestamp b) (Body.sequence b) rs
                  (Db.auto_increment db)).
  set (news2 := rows_written env2 2 m (Body.timestamp b) (Body.sequence b) rs
                  (Db.auto_increment db + Z.of_nat (List.length rs))).
  split.
  { rewrite !length_app. unfold news1, news2. rewrite !rows_written_length. lia. }
  unfold get_latest, select_latest_rows. rewrite Hone, Hcalm'. simpl orb.
  cbv iota. simpl Db.meter_readings. change (Z.to_nat (1 * 10)) with 10%nat.
  unfold news2. rewrite order_after_ingest.
  2:{ intros r Hin. apply in_app_or in Hin. destruct Hin as [Hin|Hin].
      - specialize (Hids r Hin). lia.
      - now apply rows_written_id_lt in Hin. }
  2:{ intros r Hin Hmr. apply in_app_or in Hin. destruct Hin as [Hin|Hin].
      - specialize (Hfresh r Hin Hmr). lia.
      - destruct (rows_written_In _ _ _ _ _ _ _ _ Hin) as (_ & -> & _). lia. }
  unfold news1. rewrite order_after_ingest;
    [| exact Hids | intros r Hin Hmr; specialize (Hfresh r Hin Hmr); lia].
  fold news1. fold news2. rewrite app_assoc.
  rewrite firstn_app.
  rewrite firstn_all2
    by (rewrite length_app, !length_rev; unfold news1, news2;
        rewrite !rows_written_length; lia).
  rewrite (group_head_block _ _ (Body.timestamp b) (Body.sequence b)).
  - rewrite map_app, !map_rev. unfold news1, news2.
    rewrite !rows_written_readings. reflexivity.
  - intros H. apply app_eq_nil in H. destruct H as (H & _). revert H.
    apply rows_written_not_nil. intros ->. simpl in Hlen1. lia.
  - intros r Hin. apply in_app_or in Hin.
    destruct Hin as [Hin|Hin]; apply in_rev in Hin;
      destruct (rows_written_In _ _ _ _ _ _ _ _ Hin) as (_ & ? & ? & _); now split.
  - intros r Hin. apply firstn_In, order_by_In, filter_In in Hin.
    destruct Hin as (Hin & Hmr). apply String.eqb_eq in Hmr.
    specialize (Hfresh r Hin Hmr). lia.
Qed.

Lemma retransmitted_sample_is_stored_twice_witness :
  get_latest (Env.calm 30)
    (snd (post_meter_readings (Env.calm 20)
            (snd (post_meter_readings (Env.calm 10) Db.empty
                    (body_M1 5 (JArr [active_power_100; voltage_230]))))
            (body_M1 5 (JArr [active_power_100; voltage_230]))))
    "M1" (Some 1)
  = (success
       (LatestData
          [Sample.mk 5 (Some 1)
             [voltage_230; active_power_100; voltage_230; active_power_100]]),
     snd (post_meter_readings (Env.calm 20)
            (snd (post_meter_readings (Env.calm 10) Db.empty
                    (body_M1 5 (JArr [active_power_100; voltage_230]))))
            (body_M1 5 (JArr [active_power_100; voltage_230])))).
Proof.
  apply (retransmitted_sample_is_stored_twice (Env.calm 10) (Env.calm 20)
           (Env.calm 30) Db.empty
           (body_M1 5 (JArr [active_power_100; voltage_230])) "M1"
           [active_power_100; voltage_230] (Some 1)).
  - intros r [].
  - reflexivity.
  - discriminate.
  - reflexivity.
  - simpl. lia.
  - simpl. lia.
  - reflexivity.
  - reflexivity.
  - intros r [].
  - reflexivity.
  - reflexivity.
Defined.

(** ** Shape of the latest-samples answer *)

Lemma readings_total_push_row (out : list Sample.t) (r : ReadingRow.t) :
  readings_total (push_row out r) = S (readings_total out).
Proof.
  induction out as [|s out IH]; simpl; [reflexivity|].
  destruct (Sample.timestamp s =? ReadingRow.timestamp r); simpl.
  - rewrite length_app. simpl. lia.
  - rewrite IH. lia.
Qed.

Lemma readings_total_fold (rows : list ReadingRow.t) :
  forall out,
  readings_total (fold_left push_row rows out)
  = (readings_total out + List.length rows)%nat.
Proof.
  induction rows as [|r rows IH]; intros out; simpl; [lia|].
  rewrite IH, readings_total_push_row. lia.
Qed.

Lemma readings_total_firstn (n : nat) (data : list Sample.t) :
  (readings_total (firstn n data) <= readings_total data)%nat.
Proof.
  revert n. induction data as [|s data IH]; intros [|n]; simpl; try lia.
  specialize (IH n). lia.
Qed.

(** X12.  Every sample of a latest-samples answer has at least one reading,
    every reading in it is the reading of a stored row of the requested meter
    with the sample's timestamp, and all samples together carry at most
    [limit * 10] readings. *)
Theorem latest_samples_come_from_stored_rows env db (meterId : string)
    (parsed : option Z) (data : list Sample.t) :
  fst (get_latest env db meterId parsed) = success (LatestData data) ->
  (forall s, In s data ->
     Sample.readings s <> []
     /\ forall x, In x (Sample.readings s) ->
          exists r, In r (Db.meter_readings db)
                    /\ ReadingRow.meter_id r = meterId
                    /\ ReadingRow.timestamp r = Sample.timestamp s
                    /\ reading_of_row r = x)
  /\ Z.of_nat (readings_total data) <= sample_limit parsed * 10.
Proof.
  intros Hdata. unfold get_latest in Hdata.
  destruct (Env.rejects env 0 || (sample_limit parsed * 10 <? 0)) eqn:E;
    [discriminate|].
  apply orb_false_iff in E. destruct E as (_ & Hlim). apply Z.ltb_ge in Hlim.
  simpl in Hdata. injection Hdata as <-.
  unfold slice0. destruct (Z.ltb_spec (sample_limit parsed) 0); [lia|].
  set (fetched := select_latest_rows meterId (sample_limit parsed * 10)
                    (Db.meter_readings db)).
  split.
  - intros s Hs. apply firstn_In in Hs.
    destruct (group_by_timestamp_invariant fetched) as (_ & Hsam & _).
    destruct (sample_for_Some _ _ _ (Hsam s Hs)) as (_ & (r0 & Hhd & _) & Hrd).
    split.
    + rewrite Hrd. destruct (rows_at (Sample.timestamp s) fetched);
        [discriminate|discriminate].
    + intros x Hx. rewrite Hrd in Hx. apply in_map_iff in Hx.
      destruct Hx as (r & <- & Hr). apply filter_In in Hr.
      destruct Hr as (Hr & Ht). apply Z.eqb_eq in Ht.
      unfold fetched, select_latest_rows in Hr.
      apply firstn_In, order_by_In, filter_In in Hr. destruct Hr as (Hr & Hm).
      apply String.eqb_eq in Hm. eauto.
  - pose proof (readings_total_firstn (Z.to_nat (sample_limit parsed))
                  (group_by_timestamp fetched)) as H1.
    unfold group_by_timestamp in *. rewrite readings_total_fold in H1.
    simpl in H1.
    pose proof (firstn_le_length (Z.to_nat (sample_limit parsed * 10))
                  (order_by timestamp_desc_id_desc
                     (filter (fun r => String.eqb (ReadingRow.meter_id r) meterId)
                        (Db.meter_readings db)))) as H2.
    fold (select_latest_rows meterId (sample_limit parsed * 10)
            (Db.meter_readings db)) in H2. fold fetched in H2. lia.
Qed.

Lemma latest_samples_come_from_stored_rows_witness :
  Z.of_nat
    (readings_total
       [Sample.mk 200 (Some 1) [voltage_230]; Sample.mk 100 (Some 1) [active_power_100]])
  <= sample_limit (Some 2) * 10.
Proof.
  apply (latest_samples_come_from_stored_rows (Env.calm 300)
           db_after_earlier_sample "M1" (Some 2)).
  reflexivity.
Defined.

(** ** The meters listing *)

Lemma max_timestamp_from (rows : list ReadingRow.t) :
  forall a,
  exists t,
    fold_left
      (fun acc r =>
         match acc with
         | None => Some (ReadingRow.timestamp r)
         | Some t => Some (Z.max t (ReadingRow.timestamp r))
         end)
      rows (Some a) = Some t
    /\ a <= t
    /\ (forall r, In r rows -> ReadingRow.timestamp r <= t)
    /\ (t = a \/ exists r, In r rows /\ ReadingRow.timestamp r = t).
Proof.
  induction rows as [|r rows IH]; intros a; simpl.
  - exists a. repeat split; auto; [lia|intros r []].
  - destruct (IH (Z.max a (ReadingRow.timestamp r))) as (t & -> & Hle & Hall & Hin).
    exists t. split; [reflexivity|]. split; [lia|]. split.
    + intros r' [<-|Hr']; [lia|auto].
    + destruct Hin as [->|(r' & Hr' & E)]; [|right; eauto].
      destruct (Z.max_spec a (ReadingRow.timestamp r)) as [(_ & ->)|(_ & ->)];
        [right; eauto|now left].
Qed.

Lemma max_timestamp_spec (rows : list ReadingRow.t) :
  (max_timestamp rows = None <-> rows = [])
  /\ forall t, max_timestamp rows = Some t ->
       (exists r, In r rows /\ ReadingRow.timestamp r = t)
       /\ forall r, In r rows -> ReadingRow.timestamp r <= t.
Proof.
  unfold max_timestamp. destruct rows as [|r rows]; simpl.
  - split; [tauto|discriminate].
  - destruct (max_timestamp_from rows (ReadingRow.timestamp r))
      as (t & E & Hle & Hall & Hin).
    rewrite E. split; [split; discriminate|].
    intros t' [= <-]. split.
    + destruct Hin as [->|(r' & Hr' & E')]; eauto.
    + intros r' [<-|Hr']; auto.
Qed.

(** X13.  The meters listing has one entry per registered meter, in
    decreasing order of [last_seen]; an entry repeats the registry row, counts
    the stored rows of its meter as [total_readings], and gives as
    [latest_reading_time] the greatest timestamp among them, [null] exactly
    when the meter has no row. *)
Theorem meters_listing_contract env db :
  Env.rejects env 0 = false ->
  exists data,
    get_meters env db = (success (MetersData data), db)
    /\ Permutation (map MeterView.meter_id data)
         (map Meter.meter_id (Db.meters db))
    /\ StronglySorted
         (fun v v' => MeterView.last_seen v' <= MeterView.last_seen v) data
    /\ forall v, In v data ->
         (exists m, In m (Db.meters db)
                    /\ MeterView.meter_id v = Meter.meter_id m
                    /\ MeterView.location v = Meter.location m
                    /\ MeterView.first_seen v = Meter.first_seen m
                    /\ MeterView.last_seen v = Meter.last_seen m)
         /\ MeterView.total_readings v
            = List.length (rows_of_meter (MeterView.meter_id v) (Db.meter_readings db))
         /\ (MeterView.latest_reading_time v = None <->
             MeterView.total_readings v = 0%nat)
         /\ forall t, MeterView.latest_reading_time v = Some t ->
              (exists r, In r (rows_of_meter (MeterView.meter_id v)
                                 (Db.meter_readings db))
                         /\ ReadingRow.timestamp r = t)
              /\ forall r, In r (rows_of_meter (MeterView.meter_id v)
                                   (Db.meter_readings db)) ->
                   ReadingRow.timestamp r <= t.
Proof.
  intros Hcalm. unfold get_meters. rewrite Hcalm.
  eexists. split; [reflexivity|].
  split.
  { rewrite map_map. simpl.
    change (fun x : Meter.t => Meter.meter_id x) with Meter.meter_id.
    apply Permutation_map, order_by_Permutation. }
  split.
  { apply StronglySorted_map
      with (R := fun a b => Meter.last_seen b <= Meter.last_seen a); [auto|].
    apply order_by_sorted; unfold last_seen_desc; intros; lia. }
  intros v Hv. apply in_map_iff in Hv. destruct Hv as (m & <- & Hm).
  apply order_by_In in Hm. unfold meter_view. simpl.
  assert (Hrows :
    filter (fun r => String.eqb (Meter.meter_id m) (ReadingRow.meter_id r))
      (Db.meter_readings db)
    = rows_of_meter (Meter.meter_id m) (Db.meter_readings db)).
  { unfold rows_of_meter. apply filter_ext. intros r. apply String.eqb_sym. }
  rewrite Hrows.
  destruct (max_timestamp_spec (rows_of_meter (Meter.meter_id m) (Db.meter_readings db)))
    as (Hnone & Hsome).
  split; [exists m; auto|]. split; [reflexivity|]. split; [|exact Hsome].
  rewrite Hnone. split; [now intros ->|apply length_zero_iff_nil].
Qed.

Lemma meters_listing_contract_witness :
  exists data,
    get_meters (Env.calm 300) db_after_earlier_sample
    = (success (MetersData data), db_after_earlier_sample)
    /\ Permutation (map MeterView.meter_id data)
         (map Meter.meter_id (Db.meters db_after_earlier_sample)).
Proof.
  destruct (meters_listing_contract (Env.calm 300) db_after_earlier_sample)
    as (data & H1 & H2 & _); [reflexivity|].
  exists data. split; [exact H1 | exact H2].
Defined.

Lemma upsert_meter_In now (mid : string) loc dev (tbl : list Meter.t) :
  exists first_seen,
    In (Meter.mk mid loc dev first_seen now) (upsert_meter now mid loc dev tbl).
Proof.
  induction tbl as [|m tbl IH]; simpl.
  - exists now. now left.
  - destruct (String.eqb_spec (Meter.meter_id m) mid) as [->|_].
    + exists (Meter.first_seen m). now left.
    + destruct IH as (fs & Hin). exists fs. now right.
Qed.

(** X14.  A meter that has just reported shows up in the listing: after an
    accepted ingestion of [N] readings the listing has an entry for the meter
    whose [last_seen] is the time of the upsert, whose [total_readings] is the
    previous count plus [N], and whose status is "online" as long as the
    listing is asked for less than two minutes after that time, "offline"
    from two minutes on. *)
Theorem listing_after_ingestion env env' db b (m : string) (rs : list Reading.t) :
  Body.meter_id b = JStr m -> m <> "" ->
  Body.readings b = JArr rs ->
  (List.length rs <= 100)%nat ->
  (forall k, Env.rejects env k = false) ->
  Env.rejects env' 0 = false ->
  exists data v,
    fst (get_meters env' (snd (post_meter_readings env db b)))
    = success (MetersData data)
    /\ In v data
    /\ MeterView.meter_id v = m
    /\ MeterView.last_seen v = Env.sql_now env 1
    /\ MeterView.total_readings v
       = (List.length (rows_of_meter m (Db.meter_readings db)) + List.length rs)%nat
    /\ (Env.date_now env' - 1000 * Env.sql_now env 1 < 120000 ->
        MeterView.status v = "online")
    /\ (120000 <= Env.date_now env' - 1000 * Env.sql_now env 1 ->
        MeterView.status v = "offline").
Proof.
  intros Hm Hne Hr Hlen Hcalm Hcalm'.
  rewrite (post_meter_readings_calm env db b m rs) by auto. simpl snd.
  unfold get_meters. rewrite Hcalm'. simpl Db.meters. simpl Db.meter_readings.
  destruct (upsert_meter_In (Env.sql_now env 1) m (Body.location b)
              (stringify_device_info (Body.device_info b)) (Db.meters db))
    as (fs & Hin).
  eexists. eexists. split; [reflexivity|].
  split.
  { apply in_map. apply order_by_In. exact Hin. }
  unfold meter_view.
  cbn [MeterView.meter_id MeterView.last_seen MeterView.total_readings
       MeterView.status Meter.meter_id Meter.last_seen].
  split; [reflexivity|]. split; [reflexivity|]. split.
  { rewrite filter_app, length_app. f_equal.
    - unfold rows_of_meter. f_equal. apply filter_ext. intros r. apply String.eqb_sym.
    - rewrite filter_all; [apply rows_written_length|].
      intros y Hy. destruct (rows_written_In _ _ _ _ _ _ _ _ Hy) as (-> & _).
      apply String.eqb_refl. }
  unfold date_of_timestamp. split; intros Hd.
  - apply isOnline_iff in Hd. now rewrite Hd.
  - destruct (isOnline (Env.date_now env') (1000 * Env.sql_now env 1)) eqn:E;
      [|reflexivity].
    apply isOnline_iff in E. lia.
Qed.

Lemma listing_after_ingestion_witness :
  exists data v,
    fst (get_meters (Env.calm 60)
           (snd (post_meter_readings (Env.calm 10) Db.empty
                   (body_M1 5 (JArr [active_power_100; voltage_230])))))
    = success (MetersData data)
    /\ In v data
    /\ MeterView.meter_id v = "M1"
    /\ MeterView.total_readings v = 2%nat
    /\ MeterView.status v = "online".
Proof.
  destruct (listing_after_ingestion (Env.calm 10) (Env.calm 60) Db.empty
              (body_M1 5 (JArr [active_power_100; voltage_230])) "M1"
              [active_power_100; voltage_230])
    as (data & v & H1 & H2 & H3 & _ & H5 & H6 & _).
  - reflexivity.
  - discriminate.
  - reflexivity.
  - simpl. lia.
  - reflexivity.
  - reflexivity.
  - exists data, v. repeat split; try assumption.
    apply H6. simpl. lia.
Defined.

(** ** The dashboard *)

(** X15.  The dashboard shows at most one meter, one whose [last_seen] no
    registered meter exceeds, together with at most 10 rows, all of that
    meter and newest first; with an empty registry it shows no meter and no
    row.  The daily aggregate beside them is computed from the rows of all
    meters. *)
Theorem dashboard_shows_most_recent_meter env db :
  (forall k, Env.rejects env k = false) ->
  exists meterInfo latest,
    get_dashboard_data env db
    = (success
         (DashboardData meterInfo latest
            (daily_aggregate (Env.sql_now env 2) (Db.meter_readings db))),
       db)
    /\ (Db.meters db = [] -> meterInfo = [] /\ latest = [])
    /\ (Db.meters db <> [] ->
        exists m0,
          meterInfo = [m0] /\ In m0 (Db.meters db)
          /\ (forall m, In m (Db.meters db) ->
                Meter.last_seen m <= Meter.last_seen m0)
          /\ latest = select_latest_rows (Meter.meter_id m0) 10 (Db.meter_readings db)
          /\ (List.length latest <= 10)%nat
          /\ (forall r, In r latest ->
                In r (Db.meter_readings db)
                /\ ReadingRow.meter_id r = Meter.meter_id m0)
          /\ StronglySorted newest_first latest).
Proof.
  intros Hcalm. unfold get_dashboard_data. rewrite !Hcalm.
  eexists. eexists. split; [reflexivity|].
  split.
  { intros ->. simpl. auto. }
  intros Hne.
  assert (Hsorted : StronglySorted
            (fun a b => Meter.last_seen b <= Meter.last_seen a)
            (order_by last_seen_desc (Db.meters db))).
  { apply order_by_sorted; unfold last_seen_desc; intros; lia. }
  assert (Hin : forall x, In x (order_by last_seen_desc (Db.meters db)) <->
                          In x (Db.meters db)) by (intros; apply order_by_In).
  destruct (order_by last_seen_desc (Db.meters db)) as [|m0 rest] eqn:E.
  { exfalso. destruct (Db.meters db) as [|x l]; [contradiction|].
    apply (proj2 (Hin x)). now left. }
  exists m0. simpl. split; [reflexivity|].
  split; [apply Hin; now left|].
  inversion Hsorted as [|? ? _ Hall]; subst. rewrite Forall_forall in Hall.
  split.
  { intros m Hm. apply Hin in Hm. destruct Hm as [<-|Hm]; [lia|auto]. }
  split; [reflexivity|].
  unfold select_latest_rows. split; [apply firstn_le_length|].
  split.
  { intros r Hr. apply firstn_In, order_by_In, filter_In in Hr.
    destruct Hr as (Hr & Hm). apply String.eqb_eq in Hm. auto. }
  apply firstn_sorted. apply order_by_sorted;
    eauto using newest_first_trans, timestamp_desc_id_desc_true,
                timestamp_desc_id_desc_false.
Qed.

Lemma dashboard_shows_most_recent_meter_witness :
  exists meterInfo latest,
    get_dashboard_data (Env.calm 300) db_after_earlier_sample
    = (success
         (DashboardData meterInfo latest
            (daily_aggregate 300 (Db.meter_readings db_after_earlier_sample))),
       db_after_earlier_sample).
Proof.
  destruct (dashboard_shows_most_recent_meter (Env.calm 300) db_after_earlier_sample)
    as (mi & la & H & _); [reflexivity|].
  exists mi, la. exact H.
Defined.

(** ** The daily aggregate as a whole *)

Lemma rows_of_date_cons (d : Z) (r : ReadingRow.t) (rows : list ReadingRow.t) :
  rows_of_date d (r :: rows)
  = if DATE (ReadingRow.timestamp r) =? d
    then r :: rows_of_date d rows else rows_of_date d rows.
Proof. reflexivity. Qed.

Lemma count_other_dates (r : ReadingRow.t) (rows : list ReadingRow.t) (ds : list Z) :
  ~ In (DATE (ReadingRow.timestamp r)) ds ->
  fold_right (fun d n => (List.length (rows_of_date d (r :: rows)) + n)%nat) O ds
  = fold_right (fun d n => (List.length (rows_of_date d rows) + n)%nat) O ds.
Proof.
  induction ds as [|d ds IH]; cbn [fold_right]; intros Hnot; [reflexivity|].
  rewrite rows_of_date_cons.
  destruct (Z.eqb_spec (DATE (ReadingRow.timestamp r)) d) as [E|E].
  - exfalso. apply Hnot. now left.
  - rewrite IH; [reflexivity|]. intros H. apply Hnot. now right.
Qed.

Lemma count_one_more (r : ReadingRow.t) (rows : list ReadingRow.t) (ds : list Z) :
  NoDup ds -> In (DATE (ReadingRow.timestamp r)) ds ->
  fold_right (fun d n => (List.length (rows_of_date d (r :: rows)) + n)%nat) O ds
  = S (fold_right (fun d n => (List.length (rows_of_date d rows) + n)%nat) O ds).
Proof.
  induction 1 as [|d ds Hd Hnd IH]; cbn [fold_right]; intros Hin; [destruct Hin|].
  rewrite rows_of_date_cons.
  destruct (Z.eqb_spec (DATE (ReadingRow.timestamp r)) d) as [E|E].
  - rewrite count_other_dates by (rewrite E; exact Hd). simpl. lia.
  - destruct Hin as [Hin|Hin]; [congruence|]. rewrite (IH Hin). lia.
Qed.

Lemma count_by_date (rows : list ReadingRow.t) :
  forall ds,
  NoDup ds ->
  (forall r, In r rows -> In (DATE (ReadingRow.timestamp r)) ds) ->
  fold_right (fun d n => (List.length (rows_of_date d rows) + n)%nat) O ds
  = List.length rows.
Proof.
  induction rows as [|r rows IH]; intros ds Hnd Hcov.
  - clear. induction ds as [|d ds IH]; simpl; [reflexivity|exact IH].
  - rewrite count_one_more by (auto; apply Hcov; now left).
    simpl List.length. f_equal. apply IH; [assumption|].
    intros r' Hr'. apply Hcov. now right.
Qed.

(** X16.  Every row that passes the 7-day test is counted under exactly one
    date: the [reading_count]s of the daily aggregate add up to the number of
    rows whose timestamp is not older than 7 days. *)
Theorem daily_counts_add_up now (tbl : list ReadingRow.t) :
  counted_rows (daily_aggregate now tbl)
  = List.length (filter (since_7_days now) tbl).
Proof.
  unfold daily_aggregate.
  set (rows := filter (since_7_days now) tbl).
  set (dates := order_by (fun a b => b <? a)
                  (nodup Z.eq_dec (map (fun r => DATE (ReadingRow.timestamp r)) rows))).
  assert (Hmap : forall ds,
            counted_rows
              (map (fun d => Daily.mk d (List.length (rows_of_date d rows))
                               (AVG (active_power_values (rows_of_date d rows)))) ds)
            = fold_right (fun d n => (List.length (rows_of_date d rows) + n)%nat) O ds).
  { induction ds as [|d ds IH]; simpl; [reflexivity|]. now rewrite <- IH. }
  rewrite Hmap. apply count_by_date.
  - eapply Permutation_NoDup;
      [apply Permutation_sym, order_by_Permutation | apply NoDup_nodup].
  - intros r Hr. apply order_by_In, nodup_In.
    apply (in_map (fun r => DATE (ReadingRow.timestamp r))). exact Hr.
Qed.

Lemma filter_map_comm {A : Type} (p : A -> bool) (f : A -> A) (l : list A) :
  (forall x, p (f x) = p x) -> filter p (map f l) = map f (filter p l).
Proof.
  intros H. induction l as [|a l IH]; simpl; [reflexivity|].
  rewrite H. destruct (p a); simpl; now rewrite IH.
Qed.

(** X17.  The daily aggregate looks at the timestamp, the OBIS code and the
    value of a row and at nothing else; in particular it does not separate
    meters: rewriting the other columns of the rows, the meter id among them,
    leaves it unchanged. *)
Theorem daily_aggregate_spans_all_meters now (tbl : list ReadingRow.t)
    (f : ReadingRow.t -> ReadingRow.t) :
  (forall r, ReadingRow.timestamp (f r) = ReadingRow.timestamp r
             /\ ReadingRow.obis_code (f r) = ReadingRow.obis_code r
             /\ ReadingRow.value (f r) = ReadingRow.value r) ->
  daily_aggregate now (map f tbl) = daily_aggregate now tbl.
Proof.
  intros Hf. unfold daily_aggregate.
  rewrite (filter_map_comm (since_7_days now) f)
    by (intros x; unfold since_7_days; now rewrite (proj1 (Hf x))).
  set (rows := filter (since_7_days now) tbl).
  rewrite map_map.
  rewrite (map_ext (fun x => DATE (ReadingRow.timestamp (f x)))
             (fun r => DATE (ReadingRow.timestamp r)))
    by (intros x; now rewrite (proj1 (Hf x))).
  apply map_ext. intros d. unfold rows_of_date.
  rewrite (filter_map_comm (fun r => DATE (ReadingRow.timestamp r) =? d) f)
    by (intros x; now rewrite (proj1 (Hf x))).
  rewrite length_map. unfold active_power_values.
  rewrite (filter_map_comm
             (fun r => String.eqb (ReadingRow.obis_code r) active_power_code) f)
    by (intros x; now rewrite (proj1 (proj2 (Hf x)))).
  rewrite map_map.
  rewrite (map_ext (fun x => ReadingRow.value (f x)) ReadingRow.value)
    by (intros x; apply (proj2 (proj2 (Hf x)))).
  reflexivity.
Qed.

Lemma daily_aggregate_spans_all_meters_witness :
  daily_aggregate 300
    (map (fun r => new_row (ReadingRow.id r) "M2" (ReadingRow.timestamp r)
                     (ReadingRow.sequence_number r) (reading_of_row r)
                     (ReadingRow.received_at r))
       (Db.meter_readings db_after_earlier_sample))
  = daily_aggregate 300 (Db.meter_readings db_after_earlier_sample).
Proof.
  apply daily_aggregate_spans_all_meters.
  intros r. simpl. repeat split.
Defined.

(** ** The counters of the API test script *)

Lemma report_step (outcomes : list bool) :
  forall c,
  fold_left (fun c passed => TestSuite.testResult passed c) outcomes c
  = TestSuite.mk
      (TestSuite.testCount c + List.length outcomes)
      (TestSuite.passedTests c + List.length (filter (fun p => p) outcomes))
      (TestSuite.failedTests c + List.length (filter negb outcomes)).
Proof.
  induction outcomes as [|p outcomes IH]; intros c; simpl.
  - destruct c; simpl. now rewrite !Nat.add_0_r.
  - rewrite IH. destruct p; simpl; f_equal; lia.
Qed.

(** X18.  The test script's counters stay consistent: after any sequence of
    reported outcomes the total is the number of reports and equals passed
    plus failed.  The script exits with 0 exactly when the server answered the
    opening health request, no promise was rejected without a handler, and
    every reported outcome was truthy; when the server does not answer that
    request it exits with 1 whatever else would follow. *)
Theorem test_counters_add_up (outcomes : list bool) :
  TestSuite.testCount (TestSuite.report outcomes) = List.length outcomes
  /\ TestSuite.testCount (TestSuite.report outcomes)
     = (TestSuite.passedTests (TestSuite.report outcomes)
        + TestSuite.failedTests (TestSuite.report outcomes))%nat
  /\ (forall server rejection,
        TestSuite.runAllTests (TestSuite.mkRun server outcomes rejection) = 0
        <-> server = true /\ rejection = false
            /\ forallb (fun p => p) outcomes = true)
  /\ (forall rejection,
        TestSuite.runAllTests (TestSuite.mkRun false outcomes rejection) = 1).
Proof.
  assert (Hsummary :
    TestSuite.summary_exit_code (TestSuite.report outcomes) = 0
    <-> forallb (fun p => p) outcomes = true).
  { unfold TestSuite.report. rewrite report_step. simpl.
    unfold TestSuite.summary_exit_code. simpl.
    induction outcomes as [|[] l IH]; simpl.
    - tauto.
    - exact IH.
    - split; discriminate. }
  unfold TestSuite.report at 1 2 3 4. rewrite report_step. simpl.
  assert (Hsplit : (List.length (filter (fun p => p) outcomes)
                    + List.length (filter negb outcomes))%nat
                   = List.length outcomes).
  { clear. induction outcomes as [|[] l IH]; simpl; lia. }
  split; [reflexivity|]. split; [lia|].
  split; [|reflexivity].
  intros server rejection. unfold TestSuite.runAllTests. simpl.
  destruct server, rejection; simpl.
  - split; [discriminate|intros (_ & H & _); discriminate].
  - rewrite Hsummary. tauto.
  - split; [discriminate|intros (H & _); discriminate].
  - split; [discriminate|intros (H & _); discriminate].
Qed.
